(** * cachi2 gomod resolver: a shallow embedding of
    [cachi2/core/package_managers/gomod.py] and the properties of its
    resolution engine.

    Python [str] values are modelled as Rocq strings (the UTF-8 bytes of the
    text); a Python [set] of names as a [gset string]; a [dict] keyed by
    names as a [gmap string _]; an exception as the [Raise] case of
    [result]. *)

From Stdlib Require Import ZArith Ascii.
From stdpp Require Import gmap strings list sorting pretty.

(** ** Exceptions *)

(** The exception classes of [cachi2.core.errors] that the resolver raises,
    together with the built-in ones that its dictionary lookups and the
    semver parser can raise. The argument is the message (or the key). *)
Inductive error : Type :=
  | PackageRejected (reason : string)
  | UnsupportedFeature (reason : string)
  | UnexpectedFormat (reason : string)
  | KeyError (key : string)
  | ValueError (msg : string).

Inductive result (A : Type) : Type :=
  | Ok (a : A)
  | Raise (e : error).
Arguments Ok {A} a.
Arguments Raise {A} e.

(** Sequencing: an exception aborts what follows. With this instance the
    notation [x ← r; k] runs [r] and continues with [k] on its value. *)
#[global] Instance result_bind : MBind result :=
  fun A B (k : A -> result B) (r : result A) =>
    match r with
    | Ok a => k a
    | Raise e => Raise e
    end.

Definition is_ok {A : Type} (r : result A) : bool :=
  match r with Ok _ => true | Raise _ => false end.

(** ** Python string primitives *)

Module Py.

(** [s.startswith(p)] *)
Fixpoint startswith (s p : string) {struct p} : bool :=
  match p with
  | EmptyString => true
  | String b p' =>
      match s with
      | EmptyString => false
      | String a s' => Ascii.eqb a b && startswith s' p'
      end
  end.

(** [s[n:]] *)
Fixpoint drop (n : nat) (s : string) : string :=
  match n, s with
  | O, _ => s
  | S _, EmptyString => EmptyString
  | S n', String _ s' => drop n' s'
  end.

(** [s[0:n]] *)
Definition take (n : nat) (s : string) : string := String.substring 0 n s.

(** Truth value of a string: [bool(s)]. *)
Definition truthy (s : string) : bool :=
  match s with EmptyString => false | _ => true end.

(** [sep.join(l)] *)
Fixpoint join (sep : string) (l : list string) : string :=
  match l with
  | [] => ""
  | [x] => x
  | x :: rest => x ++ sep ++ join sep rest
  end.

(** [s.split(c)] for a separator of one character: the pieces between the
    occurrences of [c]; consecutive separators give empty pieces, and the
    result always has at least one piece. *)
Fixpoint split (c : Ascii.ascii) (s : string) : list string :=
  match s with
  | EmptyString => [EmptyString]
  | String a rest =>
      if Ascii.eqb a c then EmptyString :: split c rest
      else match split c rest with
           | [] => [String a EmptyString]
           | piece :: pieces => String a piece :: pieces
           end
  end.

(** [s.replace(old, new)] for a non-empty [old]: the occurrences of [old]
    are replaced from the left, and [skip] counts the characters of the
    occurrence at hand that are still to be dropped. *)
Fixpoint replace_go (old new : string) (skip : nat) (s : string) : string :=
  match s with
  | EmptyString => EmptyString
  | String c rest =>
      match skip with
      | S k => replace_go old new k rest
      | O =>
          if startswith s old
          then new +:+ replace_go old new (String.length old - 1) rest
          else String c (replace_go old new 0 rest)
      end
  end.

Definition replace (s old new : string) : string := replace_go old new 0 s.

(** [s.partition(c)]: the text before the first [c], and the text after it
    when there is one. *)
Fixpoint partition (c : Ascii.ascii) (s : string) : string * option string :=
  match s with
  | EmptyString => (EmptyString, None)
  | String a rest =>
      if Ascii.eqb a c then (EmptyString, Some rest)
      else let '(before, after) := partition c rest in (String a before, after)
  end.

(** [x or y] on optional strings: [x] when it is a non-empty string. *)
Definition or_else (x : option string) (y : option string) : option string :=
  match x with
  | Some s => if truthy s then Some s else y
  | None => y
  end.

(** [s] between two double-quote characters (code 34). *)
Definition quoted (s : string) : string :=
  let q := String (Ascii.ascii_of_nat 34) EmptyString in q +:+ s +:+ q.

(** The substring relation, [r in msg]. *)
Definition contains (msg r : string) : Prop :=
  exists a b, msg = a +:+ r +:+ b.

End Py.

Arguments Py.startswith : simpl never.
Arguments Py.drop : simpl never.

(** ** Vendoring decision: [_should_vendor_deps] *)

(** What [app_dir / "vendor"] is on disk: [Path.exists] holds for a file and
    for a directory, [Path.is_dir] for a directory only. *)
Inductive path_state : Type := Missing | IsFile | IsDir.

Definition path_exists (p : path_state) : bool :=
  match p with Missing => false | IsFile | IsDir => true end.

Definition path_is_dir (p : path_state) : bool :=
  match p with IsDir => true | Missing | IsFile => false end.

Definition vendor_flag_required : string :=
  "The " +:+ Py.quoted "gomod-vendor" +:+ " or "
  +:+ Py.quoted "gomod-vendor-check"
  +:+ " flag must be set when your repository has vendored dependencies.".

(** Returns [(should vendor, allowed to make changes in the vendor
    directory)], or raises [PackageRejected]. *)
Definition _should_vendor_deps (flags : list string) (vendor : path_state)
    (strict : bool) : result (bool * bool) :=
  if bool_decide ("gomod-vendor-check" ∈ flags) then
    Ok (true, negb (path_exists vendor))
  else if bool_decide ("gomod-vendor" ∈ flags) then
    Ok (true, true)
  else if strict && path_is_dir vendor then
    Raise (PackageRejected vendor_flag_required)
  else
    Ok (false, false).

(** ** Vendor parser: [_module_lines_from_modules_txt] *)

Module ModulesTxt.

(** The three shapes the parser tells apart, by the prefix of the line. *)
Definition is_package_line (line : string) : bool :=
  negb (Py.startswith line "#").
Definition is_module_line (line : string) : bool :=
  Py.startswith line "# ".
Definition is_marker_line (line : string) : bool :=
  Py.startswith line "##".

Definition no_parent_module (line : string) : error :=
  UnexpectedFormat
    ("vendor/modules.txt: package has no parent module: " +:+ line).
(** The source formats the line with [repr]; the model keeps the line. *)
Definition unexpected_line (line : string) : error :=
  UnexpectedFormat ("vendor/modules.txt: unexpected format: " +:+ line).

(** The [for line in ...splitlines()] loop, over the lines that are left,
    threading [module_lines] (appended to at its end) and the dictionary
    [has_packages], which is keyed by the text of a module line. *)
Fixpoint parse_lines (lines : list string) (module_lines : list string)
    (has_packages : gmap string bool)
    : result (list string * gmap string bool) :=
  match lines with
  | [] => Ok (module_lines, has_packages)
  | line :: rest =>
      if negb (Py.startswith line "#") then
        match last module_lines with
        | None => Raise (no_parent_module line)
        | Some parent =>
            parse_lines rest module_lines (<[parent := true]> has_packages)
        end
      else if Py.startswith line "# " then
        parse_lines rest (module_lines ++ [Py.drop 2 line]) has_packages
      else if negb (Py.startswith line "##") then
        Raise (unexpected_line line)
      else
        parse_lines rest module_lines has_packages
  end.

(** [lines] is [modules_txt.read_text().splitlines()]. The last line of the
    source is [list(filter(has_packages.get, module_lines))]. *)
Definition _module_lines_from_modules_txt (lines : list string)
    : result (list string) :=
  '(module_lines, has_packages) ← parse_lines lines [] ∅;
  Ok (filter (fun m => has_packages !! m = Some true) module_lines).

(** *** The specification's reading of the file *)

(** A package line follows before the next module line. *)
Fixpoint body_has_package (rest : list string) : bool :=
  match rest with
  | [] => false
  | line :: rest' =>
      if is_module_line line then false
      else if is_package_line line then true
      else body_has_package rest'
  end.

(** The module lines, prefix stripped, that are followed by a package line
    of their own: one entry per such occurrence, in order. *)
Fixpoint modules_with_packages (lines : list string) : list string :=
  match lines with
  | [] => []
  | line :: rest =>
      if is_module_line line then
        (if body_has_package rest then [Py.drop 2 line] else [])
          ++ modules_with_packages rest
      else modules_with_packages rest
  end.

(** Every module line, prefix stripped, in order. *)
Fixpoint all_module_lines (lines : list string) : list string :=
  match lines with
  | [] => []
  | line :: rest =>
      if is_module_line line then Py.drop 2 line :: all_module_lines rest
      else all_module_lines rest
  end.

(** A line that starts with [#] and is neither a module line nor a marker. *)
Definition is_unknown_line (line : string) : bool :=
  Py.startswith line "#" && negb (is_module_line line)
    && negb (is_marker_line line).

(** The file is malformed: a package line stands before any module line,
    or some line is of no known shape. *)
Definition malformed (lines : list string) : Prop :=
  exists pre line post,
    lines = pre ++ line :: post
    /\ ((is_package_line line = true
         /\ Forall (fun l => is_module_line l = false) pre)
        \/ is_unknown_line line = true).

End ModulesTxt.

(** ** The package listing: [_load_list_deps] and [_get_dep_version] *)

(** A JSON value, for a field whose value the resolver never looks into. *)
#[warnings="-register-all"]
Inductive json_value : Type :=
  | JNull
  | JBool (b : bool)
  | JNumber (n : Z)
  | JString (s : string)
  | JArray (items : list json_value)
  | JObject (fields : list (string * json_value)).

(** The [Replace] object of a module in [go list -deps -json]. A field is
    [None] when [dict.get] returns [None] (the key is absent or null);
    [replace_other_keys] are the keys that the object has besides. *)
Record replace_info : Type := {
  replace_Path : option string;
  replace_Version : option string;
  replace_other_keys : list string;
}.

(** The [Module] object of a package. *)
Record module_info : Type := {
  module_Path : option string;
  module_Version : option string;
  module_Replace : option replace_info;
  module_other_keys : list string;
}.

Definition has_key {A : Type} (field : option A) : bool :=
  match field with Some _ => true | None => false end.

(** Truth value of a dictionary: it has at least one key. *)
Definition replace_truthy (r : replace_info) : bool :=
  has_key (replace_Path r)
  || has_key (replace_Version r)
  || negb (bool_decide (replace_other_keys r = [])).

Definition module_truthy (m : module_info) : bool :=
  has_key (module_Path m)
  || has_key (module_Version m)
  || has_key (module_Replace m)
  || negb (bool_decide (module_other_keys m = [])).

(** One object of the [go list -deps -json] stream, as [json] loads it. For
    [Standard] the key may be absent ([None]) or hold any value, [JNull]
    included. *)
Record package_json : Type := {
  pkg_ImportPath : option string;
  pkg_Module : option module_info;
  pkg_Deps : option (list string);
  pkg_Standard : option json_value;
}.

(** The dictionary [info] that [_load_list_deps] keeps for a package: a key
    is present exactly when its field is [Some]. *)
Record dep_info : Type := {
  info_Module : option module_info;
  info_Deps : option (list string);
  info_Standard : option json_value;
}.

(** [v = pkg.get(k); if v is not None: info[k] = v] for the three keys. *)
Definition load_info (pkg : package_json) : dep_info :=
  {| info_Module := pkg_Module pkg;
     info_Deps := pkg_Deps pkg;
     info_Standard :=
       match pkg_Standard pkg with
       | Some JNull | None => None
       | Some v => Some v
       end |}.

(** The loop of [_load_list_deps] over the objects of the stream; a later
    object with the same [ImportPath] overwrites an earlier one. *)
Fixpoint load_list_deps_loop (pkgs : list package_json)
    (package_info : gmap string dep_info) : result (gmap string dep_info) :=
  match pkgs with
  | [] => Ok package_info
  | pkg :: rest =>
      let info := load_info pkg in
      match pkg_ImportPath pkg with
      | None => Raise (KeyError "ImportPath")
      | Some import_path =>
          load_list_deps_loop rest (<[import_path := info]> package_info)
      end
  end.

Definition _load_list_deps (pkgs : list package_json)
    : result (gmap string dep_info) :=
  load_list_deps_loop pkgs ∅.

Definition _get_dep_version (info : dep_info) : option string :=
  match info_Module info with
  | None => None
  | Some module =>
      if negb (module_truthy module) then None
      else
        match module_Replace module with
        | Some replace =>
            if replace_truthy replace then
              Py.or_else (replace_Version replace) (replace_Path replace)
            else module_Version module
        | None => module_Version module
        end
  end.

(** ** The package graph of [_resolve_gomod] *)

(** A package-level dependency record; [None] is the version [null]. *)
Record package_dep : Type := {
  dep_name : string;
  dep_type : string;
  dep_version : option string;
}.

(** An entry of [packages]: the top-level package and its dependencies. *)
Record package_entry : Type := {
  pkg : package_dep;
  pkg_deps : list package_dep;
}.

(** [package_info[name]] *)
Definition lookup_info (package_info : gmap string dep_info) (name : string)
    : result dep_info :=
  match package_info !! name with
  | Some info => Ok info
  | None => Raise (KeyError name)
  end.

(** The version given to a dependency from its listing entry: [null] when
    the entry has the key [Standard], else the version of its module or, for
    want of one, of the main module. *)
Definition assign_version (info : dep_info) (module_version : string)
    : option string :=
  match info_Standard info with
  | Some _ => None
  | None => Py.or_else (_get_dep_version info) (Some module_version)
  end.

(** The inner loop, [for dep_name in package_info[pkg_name].get("Deps", [])]. *)
Fixpoint pkg_level_deps_loop (package_info : gmap string dep_info)
    (module_version : string) (deps : list string)
    (processed_pkg_deps : gset string) (pkg_level_deps : list package_dep)
    : result (gset string * list package_dep) :=
  match deps with
  | [] => Ok (processed_pkg_deps, pkg_level_deps)
  | name :: rest =>
      info ← lookup_info package_info name;
      pkg_level_deps_loop package_info module_version rest
        ({[name]} ∪ processed_pkg_deps)
        (pkg_level_deps
           ++ [ {| dep_name := name; dep_type := "go-package";
                   dep_version := assign_version info module_version |} ])
  end.

(** The outer loop, [for pkg_name in package_list]. *)
Fixpoint packages_loop (package_info : gmap string dep_info)
    (module_version : string) (package_list : list string)
    (processed_pkg_deps : gset string) (packages : list package_entry)
    : result (gset string * list package_entry) :=
  match package_list with
  | [] => Ok (processed_pkg_deps, packages)
  | pkg_name :: rest =>
      if bool_decide (pkg_name ∈ processed_pkg_deps) then
        packages_loop package_info module_version rest processed_pkg_deps
          packages
      else
        info ← lookup_info package_info pkg_name;
        '(processed, pkg_level_deps) ←
          pkg_level_deps_loop package_info module_version
            (default [] (info_Deps info)) processed_pkg_deps [];
        packages_loop package_info module_version rest processed
          (packages
             ++ [ {| pkg := {| dep_name := pkg_name; dep_type := "go-package";
                               dep_version := Some module_version |};
                     pkg_deps := pkg_level_deps |} ])
  end.

(** The package graph of one resolve: [packages] after the loop that starts
    from [packages = []] and [processed_pkg_deps = set()]. *)
Definition resolve_packages (package_info : gmap string dep_info)
    (module_version : string) (package_list : list string)
    : result (list package_entry) :=
  '(_, packages) ← packages_loop package_info module_version package_list ∅ [];
  Ok packages.

(** The dependencies that the listing gives for a package. *)
Definition listed_deps (package_info : gmap string dep_info)
    (name : string) : list string :=
  match package_info !! name with
  | Some info => default [] (info_Deps info)
  | None => []
  end.

(** The specification's chain for a dependency that is not of the standard
    library: [Replace.Version || Replace.Path || Module.Version], and the
    main module's version when the chain gives nothing. *)
Definition specified_version (info : dep_info) (module_version : string)
    : option string :=
  let module := info_Module info in
  let replace := module ≫= module_Replace in
  Py.or_else (replace ≫= replace_Version)
    (Py.or_else (replace ≫= replace_Path)
       (Py.or_else (module ≫= module_Version) (Some module_version))).

(** The [Replace] object that [_get_dep_version] takes the version from:
    the one of the entry's module, when it has at least one key. *)
Definition effective_replace (info : dep_info) : option replace_info :=
  module ← info_Module info;
  replace ← module_Replace module;
  if replace_truthy replace then Some replace else None.

(** ** Module-level dependencies and replacements of [_resolve_gomod] *)

(** An entry of [request.dep_replacements]. *)
Record dep_replacement : Type := {
  replacement_name : string;
  replacement_new_name : option string;
  replacement_version : string;
}.

(** The [replaces] sub-record of a module record. *)
Record replaces_record : Type := {
  replaces_type : string;
  replaces_name : string;
  replaces_version : string;
}.

(** A module-level dependency record. *)
Record module_dep : Type := {
  mod_name : string;
  mod_replaces : option replaces_record;
  mod_type : string;
  mod_version : string;
}.

(** [replaced_dep_names], the set built by the first loop over the
    replacements of the request. *)
Definition requested_names (dep_replacements : list dep_replacement)
    : gset string :=
  list_to_set (replacement_name <$> dep_replacements).

(** The body of [for line in module_lines]: the line is split on single
    spaces; a line of four parts with [=>] third is a local replacement and
    collapses to its name and path; a line of five parts with [=>] third is
    a module replacement, recorded as used when the user asked for it, and
    collapses to its right side; what is left is appended when it has two
    parts, and only logged otherwise. *)
Definition module_line_step (replaced_dep_names : gset string)
    (line : string) (used_replaced_dep_names : gset string)
    (module_level_deps : list module_dep)
    : gset string * list module_dep :=
  let parts := Py.split " " line in
  let '(used, replaces, parts) :=
    match parts with
    | [p0; p1; p2; p3] =>
        if bool_decide (p2 = "=>")
        then (used_replaced_dep_names, None, [p0; p3])
        else (used_replaced_dep_names, None, parts)
    | [old_name; old_version; p2; p3; p4] =>
        if bool_decide (p2 = "=>") then
          if bool_decide (old_name ∈ replaced_dep_names) then
            ({[old_name]} ∪ used_replaced_dep_names,
             Some {| replaces_type := "gomod"; replaces_name := old_name;
                     replaces_version := old_version |},
             [p3; p4])
          else (used_replaced_dep_names, None, [p3; p4])
        else (used_replaced_dep_names, None, parts)
    | _ => (used_replaced_dep_names, None, parts)
    end in
  match parts with
  | [name; version] =>
      (used,
       module_level_deps
         ++ [ {| mod_name := name; mod_replaces := replaces;
                 mod_type := "gomod"; mod_version := version |} ])
  | _ => (used, module_level_deps)
  end.

Fixpoint module_lines_loop (replaced_dep_names : gset string)
    (module_lines : list string) (used_replaced_dep_names : gset string)
    (module_level_deps : list module_dep) : gset string * list module_dep :=
  match module_lines with
  | [] => (used_replaced_dep_names, module_level_deps)
  | line :: rest =>
      let '(used, deps) :=
        module_line_step replaced_dep_names line used_replaced_dep_names
          module_level_deps in
      module_lines_loop replaced_dep_names rest used deps
  end.

(** The names are joined in the iteration order of a Python set, which is
    not specified; the model lists them in the order of [elements]. *)
Definition replacements_do_not_apply (unused : gset string) : string :=
  "The following gomod dependency replacements don't apply: "
  +:+ Py.join ", " (elements unused).

(** The module-level part of a resolve, from the replacements of the
    request and the lines of the module listing: the records, or
    [PackageRejected] when a replacement was not used. *)
Definition resolve_module_deps (dep_replacements : list dep_replacement)
    (module_lines : list string) : result (list module_dep) :=
  let replaced_dep_names := requested_names dep_replacements in
  let '(used_replaced_dep_names, module_level_deps) :=
    module_lines_loop replaced_dep_names module_lines ∅ [] in
  let unused_dep_replacements :=
    replaced_dep_names ∖ used_replaced_dep_names in
  if bool_decide (unused_dep_replacements = ∅) then Ok module_level_deps
  else Raise (PackageRejected
                (replacements_do_not_apply unused_dep_replacements)).

(** The listing reports a replace directive of [old_name] by another
    module: a line [old_name old_version => new_name new_version]. *)
Definition replace_directive (line old_name old_version new_name
    new_version : string) : Prop :=
  Py.split " " line = [old_name; old_version; "=>"; new_name; new_version].

(** The requested names that the listing reports as replaced. *)
Definition honored (dep_replacements : list dep_replacement)
    (module_lines : list string) : gset string :=
  (module_lines_loop (requested_names dep_replacements) module_lines ∅ []).1.

(** ** Local paths: [_vet_local_deps] *)

(** [".." in Path(version).parts]. [pathlib] splits a POSIX path on [/],
    drops the empty and the [.] components and keeps every [..], so the
    test holds exactly when a piece between slashes is [..]. *)
Definition has_parent_part (version : string) : bool :=
  bool_decide (".." ∈ Py.split "/" version).

Definition contains_parent_dir (version : string) : error :=
  UnsupportedFeature
    ("Path to gomod dependency contains '..': " +:+ version +:+ ".").

Definition absolute_path (version : string) : error :=
  UnsupportedFeature
    ("Absolute paths to gomod dependencies are not supported: " +:+ version).

Section VetLocalDeps.

(** [PureWindowsPath(version).root], a function of the [pathlib] in use. *)
Variable PureWindowsPath_root : string -> string.

(** The body of the loop of [_vet_local_deps] for one [dep["version"]];
    [None] is the version [null]. *)
Definition vet_version (version : option string) : result unit :=
  match version with
  | None => Ok tt
  | Some version =>
      if negb (Py.truthy version) then Ok tt
      else if Py.startswith version "." && has_parent_part version then
        Raise (contains_parent_dir version)
      else if Py.startswith version "/"
              || Py.truthy (PureWindowsPath_root version) then
        Raise (absolute_path version)
      else Ok tt
  end.

(** [_vet_local_deps] over records of type [A], whose ["version"] is read
    by [version_of]. *)
Fixpoint _vet_local_deps {A : Type} (version_of : A -> option string)
    (dependencies : list A) : result unit :=
  match dependencies with
  | [] => Ok tt
  | dep :: rest =>
      _ ← vet_version (version_of dep);
      _vet_local_deps version_of rest
  end.

(** What vetting lets through: no version, an empty one, or a path that
    is not rooted and, when it starts with a dot, has no [..] part. *)
Definition vetted (version : option string) : Prop :=
  match version with
  | None => True
  | Some version =>
      version = ""
      \/ (Py.startswith version "/" = false
          /\ PureWindowsPath_root version = ""
          /\ (Py.startswith version "." = true ->
              ".." ∉ Py.split "/" version))
  end.

End VetLocalDeps.





(** ** Cache merger: [_merge_files] and [_merge_bundle_dirs] *)

Module PyFile.

Definition LF : ascii := ascii_of_nat 10.
Definition CR : ascii := ascii_of_nat 13.

(** The whitespace that [str.rstrip()] strips, for ASCII text: tab, line
    feed, vertical tab, form feed, carriage return, the separators 28 to
    31 and the space. *)
Definition is_space (c : ascii) : bool :=
  let n := nat_of_ascii c in
  ((9 <=? n) && (n <=? 13) || (28 <=? n) && (n <=? 32))%nat.

(** [line.rstrip()] *)
Fixpoint rstrip (s : string) : string :=
  match s with
  | EmptyString => EmptyString
  | String c rest =>
      match rstrip rest with
      | EmptyString => if is_space c then EmptyString else String c EmptyString
      | stripped => String c stripped
      end
  end.

(** [file.readlines()] of a file opened in text mode: the content is cut
    after each line end, and a line end, which on disk is a line feed, a
    carriage return or the two in a row, is read as a line feed. *)
Fixpoint readlines (content : string) : list string :=
  match content with
  | EmptyString => []
  | String c rest =>
      if Ascii.eqb c LF then String LF EmptyString :: readlines rest
      else if Ascii.eqb c CR then
        match rest with
        | String c' rest' =>
            if Ascii.eqb c' LF then String LF EmptyString :: readlines rest'
            else String LF EmptyString :: readlines rest
        | EmptyString => [String LF EmptyString]
        end
      else
        match readlines rest with
        | [] => [String c EmptyString]
        | line :: lines => String c line :: lines
        end
  end.

(** What [target.write(str(line) + "\n")] leaves in the file, line by
    line. *)
Fixpoint write_lines (lines : list string) : string :=
  match lines with
  | [] => EmptyString
  | line :: rest => line +:+ String LF EmptyString +:+ write_lines rest
  end.

End PyFile.

(** [[line.rstrip() for line in file.readlines()]] *)
Definition stripped_lines (content : string) : list string :=
  PyFile.rstrip <$> PyFile.readlines content.

(** [sorted(set(lines))] without the empty line: Python orders strings by
    code point, which on the bytes of the text is [String.le]. *)
Definition sorted_unique_lines (lines : list string) : list string :=
  filter (fun line => line <> "")
    (merge_sort String.le (remove_dups lines)).

(** The content of [dst_file] after [_merge_files(src_file, dst_file)],
    from the contents of the two files before. *)
Definition _merge_files (src_content dst_content : string) : string :=
  let source_content := stripped_lines src_content in
  let dest_content := stripped_lines dst_content in
  PyFile.write_lines (sorted_unique_lines (source_content ++ dest_content)).

(** A bundle directory: the content of each regular file below the root,
    by its path from the root, one component per directory level. The
    directories are those of the paths; the model leaves out trees in which
    a path is a file on one side and a directory on the other. *)
Abbreviation bundle_dir := (gmap (list string) string).

(** [src_file + ".lock"] *)
Definition lock_path (path : list string) : list string :=
  match path with
  | [] => []
  | _ => removelast path ++ [default "" (last path) +:+ ".lock"]
  end.

(** The body of [for file_ in files] for the file at [path] of the source
    tree. *)
Definition merge_entry (src : bundle_dir) (dst : bundle_dir)
    (file : list string * string) : bundle_dir :=
  let '(path, content) := file in
  match dst !! path with
  | Some dst_content =>
      if bool_decide (last path = Some "list")
         && bool_decide (is_Some (src !! lock_path path))
      then <[path := _merge_files content dst_content]> dst
      else dst
  | None => <[path := content]> dst
  end.

(** [_merge_bundle_dirs(root_src_dir, root_dst_dir)]: the destination tree
    after the walk over the files of the source tree. *)
Definition _merge_bundle_dirs (src dst : bundle_dir) : bundle_dir :=
  foldl (merge_entry src) dst (map_to_list src).


(** ** Semantic versions, as the [semver] package holds them *)

Module Semver.

(** [semver.VersionInfo]: [prerelease] and [build] are [None] or a
    string. *)
Record VersionInfo : Type := {
  major : N;
  minor : N;
  patch : N;
  prerelease : option string;
  build : option string;
}.

(** Truth value of an optional string, as in [if version.prerelease]. *)
Definition truthy (field : option string) : bool :=
  match field with
  | Some s => Py.truthy s
  | None => false
  end.

(** [str(version)] *)
Definition to_string (v : VersionInfo) : string :=
  pretty (major v) +:+ "." +:+ pretty (minor v) +:+ "." +:+ pretty (patch v)
  +:+ (match prerelease v with
       | Some pre => if Py.truthy pre then "-" +:+ pre else ""
       | None => ""
       end)
  +:+ (match build v with
       | Some b => if Py.truthy b then "+" +:+ b else ""
       | None => ""
       end).

(** [version.bump_patch()]: the next patch, without prerelease or build. *)
Definition bump_patch (v : VersionInfo) : VersionInfo :=
  {| major := major v; minor := minor v; patch := patch v + 1;
     prerelease := None; build := None |}.

End Semver.

(** ** Decimal numbers and the commit time *)

Definition digit_value (c : ascii) : option N :=
  let n := N_of_ascii c in
  if ((48 <=? n) && (n <=? 57))%N then Some (n - 48)%N else None.

(** [int(digits)] for a string of ASCII digits, read after [acc]. *)
Fixpoint decimal_value (acc : N) (digits : string) : N :=
  match digits with
  | EmptyString => acc
  | String c rest =>
      decimal_value (10 * acc + default 0 (digit_value c))%N rest
  end.

Fixpoint all_digits (s : string) : bool :=
  match s with
  | EmptyString => true
  | String c rest => has_key (digit_value c) && all_digits rest
  end.

(** The last [width] decimal digits of [n], with leading zeros. *)
Fixpoint fixed_digits (width : nat) (n : Z) : string :=
  match width with
  | O => EmptyString
  | S w =>
      fixed_digits w (n / 10)
      +:+ String (ascii_of_N (48 + Z.to_N (n mod 10))) EmptyString
  end.

(** The civil date of a day counted from 1970-01-01, in the proleptic
    Gregorian calendar: [(year, month, day)]. *)
Definition civil_from_days (days : Z) : Z * Z * Z :=
  let z := (days + 719468)%Z in
  let era := (z / 146097)%Z in
  let doe := (z - era * 146097)%Z in
  let yoe := ((doe - doe / 1460 + doe / 36524 - doe / 146096) / 365)%Z in
  let doy := (doe - (365 * yoe + yoe / 4 - yoe / 100))%Z in
  let mp := ((5 * doy + 2) / 153)%Z in
  let d := (doy - (153 * mp + 2) / 5 + 1)%Z in
  let m := (if (mp <? 10)%Z then mp + 3 else mp - 9)%Z in
  let y := (yoe + era * 400 + (if (m <=? 2)%Z then 1 else 0))%Z in
  (y, m, d).

(** The number of days from 1970-01-01 to a civil date, counted through
    the eras of 400 years, the years of the era and the months from March. *)
Definition days_from_civil (y m d : Z) : Z :=
  let y' := (if (m <=? 2)%Z then y - 1 else y)%Z in
  let era := (y' / 400)%Z in
  let yoe := (y' - era * 400)%Z in
  let mp := (if (2 <? m)%Z then m - 3 else m + 9)%Z in
  let doy := ((153 * mp + 2) / 5 + d - 1)%Z in
  let doe := (yoe * 365 + yoe / 4 - yoe / 100 + doy)%Z in
  (era * 146097 + doe - 719468)%Z.

(** [datetime.utcfromtimestamp(t).strftime("%Y%m%d%H%M%S")] for a commit
    time [t], in seconds since 1970-01-01T00:00:00Z, of the years 1970 to
    9999. *)
Definition utc_timestamp (t : Z) : string :=
  let '(y, m, d) := civil_from_days (t / 86400) in
  let s := (t mod 86400)%Z in
  fixed_digits 4 y +:+ fixed_digits 2 m +:+ fixed_digits 2 d
  +:+ fixed_digits 2 (s / 3600) +:+ fixed_digits 2 (s mod 3600 / 60)
  +:+ fixed_digits 2 (s mod 60).

(** ** The Git version oracle *)

(** [git.Commit]: the fields that the oracle reads. *)
Record commit : Type := {
  hexsha : string;
  committed_date : Z;
}.

(** What Git reports for the target commit: the tags of
    [git tag --points-at] and those of
    [git for-each-ref refs/tags --merged], line by line. *)
Record repo : Type := {
  tags_points_at : list string;
  tags_merged : list string;
}.

(** [re.match(r"(?:.+/v)(?P<major_version>\d+)$", module_name)]: the
    digits are followed by the end of the name, or by a line feed that ends
    it. *)
Fixpoint digits_to_end (acc : N) (seen : bool) (s : string) : option N :=
  match s with
  | EmptyString => if seen then Some acc else None
  | String c rest =>
      match digit_value c with
      | Some d => digits_to_end (10 * acc + d)%N true rest
      | None =>
          if seen && Ascii.eqb c PyFile.LF && negb (Py.truthy rest)
          then Some acc else None
      end
  end.

(** [/v\d+$] at the start of [s]. *)
Definition match_major_suffix (s : string) : option N :=
  if Py.startswith s "/v" then digits_to_end 0 false (Py.drop 2 s) else None.

(** The rest of [.+/v\d+$] once [.+] has taken a character: the greedy
    [.+] first takes one more character, any but a line feed, and the
    suffix is tried where that fails. *)
Fixpoint match_after_any (s : string) : option N :=
  match s with
  | EmptyString => None
  | String c rest =>
      match (if Ascii.eqb c PyFile.LF then None else match_after_any rest) with
      | Some n => Some n
      | None => match_major_suffix s
      end
  end.

(** [module_major_version] after the match: [None] when there is none. *)
Definition match_major_version (module_name : string) : option N :=
  match module_name with
  | EmptyString => None
  | String c rest =>
      if Ascii.eqb c PyFile.LF then None else match_after_any rest
  end.

(** [major_versions_to_try]: the declared major version when it is not
    zero, else 1 and then 0. *)
Definition major_versions_to_try (module_major_version : option N) : list N :=
  match module_major_version with
  | Some n => if (n =? 0)%N then [1; 0]%N else [n]
  | None => [1; 0]%N
  end.

Section GitVersionOracle.

(** [semver.VersionInfo.parse]; [None] stands for its [ValueError]. *)
Variable parse : string -> option Semver.VersionInfo.

(** The order of [semver.VersionInfo]: [semver_gt a b] is [a > b]. *)
Variable semver_gt : Semver.VersionInfo -> Semver.VersionInfo -> bool.

Definition not_semver (text : string) : error :=
  ValueError (text +:+ " is not valid SemVer string").

Definition _get_semantic_version_from_tag (tag_name : string)
    (subpath : option string) : result Semver.VersionInfo :=
  let semantic_version :=
    match subpath with
    | Some sub =>
        if Py.truthy sub then Py.replace tag_name (sub +:+ "/v") ""
        else Py.drop 1 tag_name
    | None => Py.drop 1 tag_name
    end in
  match parse semantic_version with
  | Some version => Ok version
  | None => Raise (not_semver semantic_version)
  end.

(** [prefix = f"{subpath}/v" if subpath else "v"] *)
Definition tag_prefix (subpath : option string) : string :=
  match subpath with
  | Some sub => if Py.truthy sub then sub +:+ "/v" else "v"
  | None => "v"
  end.

(** The loop [for tag_name in filtered_tags] of [_get_highest_semver_tag],
    with [highest] as the pair of the tag and its version. *)
Fixpoint highest_loop (major_version : N) (subpath : option string)
    (filtered_tags : list string)
    (highest : option (string * Semver.VersionInfo))
    : option (string * Semver.VersionInfo) :=
  match filtered_tags with
  | [] => highest
  | tag_name :: rest =>
      match _get_semantic_version_from_tag tag_name subpath with
      | Raise _ => highest_loop major_version subpath rest highest
      | Ok semantic_version =>
          if negb (Semver.major semantic_version =? major_version)%N then
            highest_loop major_version subpath rest highest
          else
            match highest with
            | None =>
                highest_loop major_version subpath rest
                  (Some (tag_name, semantic_version))
            | Some (_, best) =>
                if semver_gt semantic_version best then
                  highest_loop major_version subpath rest
                    (Some (tag_name, semantic_version))
                else highest_loop major_version subpath rest highest
            end
      end
  end.

(** The name of the highest semantic version tag, if there is one. *)
Definition _get_highest_semver_tag (r : repo) (major_version : N)
    (all_reachable : bool) (subpath : option string) : option string :=
  let tag_names := if all_reachable then tags_merged r else tags_points_at r in
  let prefix := tag_prefix subpath in
  let filtered_tags :=
    filter (fun tag_name => Py.startswith tag_name prefix = true) tag_names in
  fst <$> highest_loop major_version subpath filtered_tags None.

(** [module_major_version or "0"] inside the format string. *)
Definition major_or_zero (module_major_version : option N) : string :=
  match module_major_version with
  | Some n => if (n =? 0)%N then "0" else pretty n
  | None => "0"
  end.

Definition _get_golang_pseudo_version (c : commit) (tag : option string)
    (module_major_version : option N) (subpath : option string)
    : result string :=
  let commit_timestamp := utc_timestamp (committed_date c) in
  let commit_hash := Py.take 12 (hexsha c) in
  match tag with
  | None =>
      Ok ("v" +:+ major_or_zero module_major_version +:+ ".0.0-"
          +:+ commit_timestamp +:+ "-" +:+ commit_hash)
  | Some tag_name =>
      tag_semantic_version ← _get_semantic_version_from_tag tag_name subpath;
      let '(version_seperator, pseudo_semantic_version) :=
        if Semver.truthy (Semver.prerelease tag_semantic_version)
        then (".", tag_semantic_version)
        else ("-", Semver.bump_patch tag_semantic_version) in
      Ok ("v" +:+ Semver.to_string pseudo_semantic_version
          +:+ version_seperator +:+ "0." +:+ commit_timestamp +:+ "-"
          +:+ commit_hash)
  end.

(** The first loop of [_get_golang_version]: the version from the highest
    tag on the commit, for the first major version that has one. *)
Fixpoint version_from_tag_on_commit (r : repo) (subpath : option string)
    (majors : list N) : option string :=
  match majors with
  | [] => None
  | major_version :: rest =>
      match _get_highest_semver_tag r major_version false subpath with
      | Some tag_name =>
          Some match subpath with
               | Some sub =>
                   if Py.truthy sub then Py.replace tag_name (sub +:+ "/") ""
                   else tag_name
               | None => tag_name
               end
      | None => version_from_tag_on_commit r subpath rest
      end
  end.

(** The second loop: the pseudo-base tag, with the major version it was
    found for. *)
Fixpoint pseudo_base_tag (r : repo) (subpath : option string)
    (majors : list N) : option (string * N) :=
  match majors with
  | [] => None
  | major_version :: rest =>
      match _get_highest_semver_tag r major_version true subpath with
      | Some tag_name => Some (tag_name, major_version)
      | None => pseudo_base_tag r subpath rest
      end
  end.

(** [_get_golang_version] for the commit [c] of the repository [r], whose
    tags are read after the fetch. *)
Definition _get_golang_version (module_name : string) (r : repo) (c : commit)
    (subpath : option string) : result string :=
  let module_major_version := match_major_version module_name in
  let majors := major_versions_to_try module_major_version in
  match version_from_tag_on_commit r subpath majors with
  | Some version => Ok version
  | None =>
      match pseudo_base_tag r subpath majors with
      | Some (pseudo_base, major_version) =>
          _get_golang_pseudo_version c (Some pseudo_base) (Some major_version)
            subpath
      | None =>
          _get_golang_pseudo_version c None module_major_version subpath
      end
  end.

End GitVersionOracle.

(** ** A reference [semver] for the examples *)

(** A number of [MAJOR.MINOR.PATCH]: digits, without a leading zero. *)
Definition parse_numeric (s : string) : option N :=
  match s with
  | EmptyString => None
  | String c rest =>
      if all_digits s && (negb (Ascii.eqb c "0") || negb (Py.truthy rest))
      then Some (decimal_value 0 s) else None
  end.

(** A reading of [MAJOR.MINOR.PATCH[-PRERELEASE][+BUILD]] that agrees with
    [semver.VersionInfo.parse] on the tags of the examples; it does not
    check the characters of the prerelease and of the build. *)
Definition parse_model (text : string) : option Semver.VersionInfo :=
  let '(version, build) := Py.partition "+" text in
  let '(core, prerelease) := Py.partition "-" version in
  match Py.split "." core with
  | [major; minor; patch] =>
      major ← parse_numeric major;
      minor ← parse_numeric minor;
      patch ← parse_numeric patch;
      if bool_decide (prerelease = Some "") || bool_decide (build = Some "")
      then None
      else Some {| Semver.major := major; Semver.minor := minor;
                   Semver.patch := patch; Semver.prerelease := prerelease;
                   Semver.build := build |}
  | _ => None
  end.

(** The order on the numbers of two versions, and a release above its
    prereleases; prereleases of the same numbers are not told apart. *)
Definition gt_model (a b : Semver.VersionInfo) : bool :=
  match (Semver.major a ?= Semver.major b)%N with
  | Gt => true
  | Lt => false
  | Eq =>
      match (Semver.minor a ?= Semver.minor b)%N with
      | Gt => true
      | Lt => false
      | Eq =>
          match (Semver.patch a ?= Semver.patch b)%N with
          | Gt => true
          | Lt => false
          | Eq =>
              negb (Semver.truthy (Semver.prerelease a))
              && Semver.truthy (Semver.prerelease b)
          end
      end
  end.



(** ** Exceptions of the helpers *)

(** What a helper can raise besides the exceptions of [error]: the built-in
    [RuntimeError]. *)
Inductive exception : Type :=
  | Known (e : error)
  | RuntimeError (msg : string).

Inductive outcome (A : Type) : Type :=
  | Returns (a : A)
  | Raises (x : exception).
Arguments Returns {A} a.
Arguments Raises {A} x.

#[global] Instance outcome_bind : MBind outcome :=
  fun A B (k : A -> outcome B) (r : outcome A) =>
    match r with
    | Returns a => k a
    | Raises x => Raises x
    end.

(** A call that raises only the exceptions of [error]. *)
Definition lift {A : Type} (r : result A) : outcome A :=
  match r with
  | Ok a => Returns a
  | Raise e => Raises (Known e)
  end.

(** ** Paths of [os.path], on a POSIX system *)

Module PyPath.

(** [s.lstrip("/")] *)
Fixpoint lstrip_slash (s : string) : string :=
  match s with
  | EmptyString => EmptyString
  | String c rest => if Ascii.eqb c "/" then lstrip_slash rest else s
  end.

(** [s.endswith("/")] *)
Fixpoint ends_with_slash (s : string) : bool :=
  match s with
  | EmptyString => false
  | String c EmptyString => Ascii.eqb c "/"
  | String _ rest => ends_with_slash rest
  end.

(** [os.path.join(a, b)] *)
Definition join (a b : string) : string :=
  if Py.startswith b "/" then b
  else if negb (Py.truthy a) || ends_with_slash a then a +:+ b
  else a +:+ "/" +:+ b.

(** The loop of [os.path.normpath] over the components of the path;
    [initial_slashes] is the number of slashes kept at the start. *)
Fixpoint normpath_loop (initial_slashes : nat) (comps new_comps : list string)
    : list string :=
  match comps with
  | [] => new_comps
  | comp :: rest =>
      if bool_decide (comp = "") || bool_decide (comp = ".") then
        normpath_loop initial_slashes rest new_comps
      else if negb (bool_decide (comp = ".."))
              || (initial_slashes =? 0)%nat && bool_decide (new_comps = [])
              || bool_decide (last new_comps = Some "..")
      then normpath_loop initial_slashes rest (new_comps ++ [comp])
      else if negb (bool_decide (new_comps = [])) then
        normpath_loop initial_slashes rest (removelast new_comps)
      else normpath_loop initial_slashes rest new_comps
  end.

(** [os.path.normpath(path)] *)
Definition normpath (path : string) : string :=
  if negb (Py.truthy path) then "."
  else
    let initial_slashes :=
      if Py.startswith path "/" then
        if Py.startswith path "//" && negb (Py.startswith path "///")
        then 2%nat else 1%nat
      else 0%nat in
    let comps := Py.split "/" path in
    let new_comps := normpath_loop initial_slashes comps [] in
    let joined := Py.join "/" new_comps in
    let path :=
      match initial_slashes with
      | 0%nat => joined
      | 1%nat => "/" +:+ joined
      | _ => "//" +:+ joined
      end in
    if Py.truthy path then path else ".".

End PyPath.

(** ** Packages and their parent modules *)

(** [package_name[len(parent_name)] == "/"] is read only when the package
    name is the longer one, so the index is in range. *)
Definition _contains_package (parent_name package_name : string) : bool :=
  if negb (Py.startswith package_name parent_name) then false
  else if (String.length parent_name <? String.length package_name)%nat then
    match String.get (String.length parent_name) package_name with
    | Some c => Ascii.eqb c "/"
    | None => false
    end
  else true.

Definition does_not_belong (subpackage_name parent_name : string) : error :=
  ValueError
    ("Package " +:+ subpackage_name +:+ " does not belong to " +:+ parent_name).

Definition _path_to_subpackage (parent_name subpackage_name : string)
    : result string :=
  if negb (_contains_package parent_name subpackage_name) then
    Raise (does_not_belong subpackage_name parent_name)
  else
    Ok (PyPath.lstrip_slash
          (Py.drop (String.length parent_name) subpackage_name)).

(** [_package_subpath]: the path of the package from the root of the
    repository, for a module at [module_subpath]. *)
Definition _package_subpath (module_name package_name module_subpath : string)
    : result string :=
  subpath ← _path_to_subpackage module_name package_name;
  Ok (PyPath.normpath (PyPath.join module_subpath subpath)).

(** [max(names, key=len, default=best)]: a later name replaces the best one
    only when it is strictly longer. *)
Fixpoint max_by_length (best : option string) (names : list string)
    : option string :=
  match names with
  | [] => best
  | name :: rest =>
      match best with
      | None => max_by_length (Some name) rest
      | Some b =>
          if (String.length b <? String.length name)%nat
          then max_by_length (Some name) rest
          else max_by_length best rest
      end
  end.

Definition _match_parent_module (package_name : string)
    (module_names : list string) : option string :=
  max_by_length None
    (filter (fun module_name =>
               _contains_package module_name package_name = true)
       module_names).

Definition no_parent_module_for (dep_name : string) : exception :=
  RuntimeError
    ("Could not find parent Go module for local dependency: " +:+ dep_name).

(** [locally_replaced_mod_names]: the names of the module-level
    dependencies whose version starts with a dot. *)
Definition locally_replaced_mod_names (main_module_deps : list module_dep)
    : list string :=
  mod_name
    <$> filter (fun module => Py.startswith (mod_version module) "." = true)
          main_module_deps.

(** The body of the loop of [_set_full_local_dep_relpaths] for one
    dependency: the record as the loop leaves it. *)
Definition set_full_local_dep_relpath (module_names : list string)
    (dep : package_dep) : outcome package_dep :=
  match dep_version dep with
  | None => Returns dep
  | Some dep_path =>
      if negb (Py.truthy dep_path) || negb (Py.startswith dep_path ".")
      then Returns dep
      else
        match _match_parent_module (dep_name dep) module_names with
        | None => Raises (no_parent_module_for (dep_name dep))
        | Some dep_module_name =>
            path_from_module_to_pkg ←
              lift (_path_to_subpackage dep_module_name (dep_name dep));
            if Py.truthy path_from_module_to_pkg then
              Returns {| dep_name := dep_name dep; dep_type := dep_type dep;
                         dep_version :=
                           Some (PyPath.join dep_path
                                   path_from_module_to_pkg) |}
            else Returns dep
        end
  end.

Fixpoint set_relpaths_loop (module_names : list string)
    (pkg_deps : list package_dep) : outcome (list package_dep) :=
  match pkg_deps with
  | [] => Returns []
  | dep :: rest =>
      dep' ← set_full_local_dep_relpath module_names dep;
      rest' ← set_relpaths_loop module_names rest;
      Returns (dep' :: rest')
  end.

(** [_set_full_local_dep_relpaths]: the list [pkg_deps] as the function
    leaves it, which in the source is the same list changed in place. *)
Definition _set_full_local_dep_relpaths (pkg_deps : list package_dep)
    (main_module_deps : list module_dep) : outcome (list package_dep) :=
  set_relpaths_loop (locally_replaced_mod_names main_module_deps) pkg_deps.

(** The end of [_resolve_gomod]: the module-level dependencies are vetted,
    then the dependencies of each package are vetted and their local paths
    completed; [packages] is returned as this leaves it. *)
Fixpoint vet_and_complete_packages (PureWindowsPath_root : string -> string)
    (module_level_deps : list module_dep) (packages : list package_entry)
    : outcome (list package_entry) :=
  match packages with
  | [] => Returns []
  | entry :: rest =>
      _ ← lift (_vet_local_deps PureWindowsPath_root dep_version
                  (pkg_deps entry));
      deps ← _set_full_local_dep_relpaths (pkg_deps entry) module_level_deps;
      rest' ← vet_and_complete_packages PureWindowsPath_root
                module_level_deps rest;
      Returns ({| pkg := pkg entry; pkg_deps := deps |} :: rest')
  end.

Definition vet_and_complete (PureWindowsPath_root : string -> string)
    (module_level_deps : list module_dep) (packages : list package_entry)
    : outcome (list package_entry) :=
  _ ← lift (_vet_local_deps PureWindowsPath_root (Some ∘ mod_version)
              module_level_deps);
  vet_and_complete_packages PureWindowsPath_root module_level_deps packages.

(** ** Vendoring or downloading *)

Definition vendor_not_consistent : string :=
  "The content of the vendor directory is not consistent with go.mod. "
  +:+ "Please check the logs for more details.".

(** [_vendor_deps]: [go_mod_vendor] is what running [go mod vendor] through
    [_run_download_cmd] gives, and [vendor_changed] what [_vendor_changed]
    gives, which is called only when no changes can be made. *)
Definition _vendor_deps (go_mod_vendor : outcome string)
    (vendor_changed : outcome bool) (can_make_changes : bool)
    : outcome unit :=
  _ ← go_mod_vendor;
  if negb can_make_changes then
    changed ← vendor_changed;
    if changed : bool
    then Raises (Known (PackageRejected vendor_not_consistent))
    else Returns tt
  else Returns tt.

(** The step of [_resolve_gomod] that fetches the dependencies: they are
    vendored or downloaded, as [_should_vendor_deps] decides; the result is
    [should_vendor]. *)
Definition vendor_or_download (flags : list string) (vendor : path_state)
    (strict : bool) (go_mod_vendor go_mod_download : outcome string)
    (vendor_changed : outcome bool) : outcome bool :=
  '(should_vendor, can_make_changes) ←
    lift (_should_vendor_deps flags vendor strict);
  if should_vendor : bool then
    _ ← _vendor_deps go_mod_vendor vendor_changed can_make_changes;
    Returns true
  else
    _ ← go_mod_download;
    Returns false.

(** ** Predicates of the statements *)

(** A dependency record as the inner loop builds it from the listing. *)
Definition dep_from_listing (package_info : gmap string dep_info)
    (module_version : string) (d : package_dep) : Prop :=
  exists info,
    package_info !! dep_name d = Some info
    /\ dep_type d = "go-package"
    /\ dep_version d = assign_version info module_version.

(** A top-level entry as the outer loop builds it. *)
Definition entry_from_listing (package_info : gmap string dep_info)
    (module_version : string) (e : package_entry) : Prop :=
  is_Some (package_info !! dep_name (pkg e))
  /\ dep_version (pkg e) = Some module_version
  /\ dep_name <$> pkg_deps e = listed_deps package_info (dep_name (pkg e))
  /\ Forall (dep_from_listing package_info module_version) (pkg_deps e).

(** A record that carries [replaces] for the directive of [line]. *)
Definition records_directive (replaced_dep_names : gset string)
    (line : string) (d : module_dep) : Prop :=
  exists old_name old_version,
    replace_directive line old_name old_version (mod_name d) (mod_version d)
    /\ old_name ∈ replaced_dep_names
    /\ mod_replaces d
       = Some {| replaces_type := "gomod"; replaces_name := old_name;
                 replaces_version := old_version |}.

(** A line without its end: no line feed and no carriage return in it. *)
Fixpoint line_body (s : string) : bool :=
  match s with
  | EmptyString => true
  | String c rest =>
      negb (Ascii.eqb c PyFile.LF) && negb (Ascii.eqb c PyFile.CR) && line_body rest
  end.

(** A line as [_merge_files] holds it: stripped, and without a line end. *)
Definition clean_line (s : string) : Prop :=
  line_body s = true /\ PyFile.rstrip s = s.

(** A line of [readlines]: a body, with a line feed after it unless it is
    the last line of a file that does not end in one. *)
Definition line_shape (line : string) : Prop :=
  exists body,
    line_body body = true
    /\ (line = body \/ line = body +:+ String PyFile.LF EmptyString).

(** Where no slash is left, the suffix [/v\d+] cannot start. *)
Fixpoint no_slash (s : string) : bool :=
  match s with
  | EmptyString => true
  | String c rest => negb (Ascii.eqb c "/") && no_slash rest
  end.

(** A tag that counts for a major version: it parses, to that major. *)
Definition tag_of_major (parse : string -> option Semver.VersionInfo)
    (subpath : option string) (major_version : N) (tag_name : string)
    (version : Semver.VersionInfo) : Prop :=
  _get_semantic_version_from_tag parse tag_name subpath = Ok version
  /\ Semver.major version = major_version.

(** The order of versions is a strict weak order: no two versions are each
    above the other, and a version above another is above, or the other is
    below, any third one. *)
Definition strict_weak_order
    (semver_gt : Semver.VersionInfo -> Semver.VersionInfo -> bool) : Prop :=
  (forall a b, semver_gt a b = true -> semver_gt b a = false)
  /\ (forall a b c,
        semver_gt a c = true -> semver_gt a b = true \/ semver_gt b c = true).

(** The tags that [_get_highest_semver_tag] chooses from. *)
Definition candidate_tags (r : repo) (all_reachable : bool)
    (subpath : option string) : list string :=
  filter (fun tag_name => Py.startswith tag_name (tag_prefix subpath) = true)
    (if all_reachable then tags_merged r else tags_points_at r).

(** A component of a path that [os.path.normpath] keeps as it is: not
    empty, without a slash, and neither [.] nor [..]. *)
Definition path_component (s : string) : bool :=
  Py.truthy s && no_slash s
    && negb (bool_decide (s = ".")) && negb (bool_decide (s = "..")).

(** The path of the components [parts], which is [.] when there is none. *)
Definition path_of (parts : list string) : string :=
  match parts with
  | [] => "."
  | _ => Py.join "/" parts
  end.

(** A string of slashes only. *)
Fixpoint only_slashes (s : string) : bool :=
  match s with
  | EmptyString => true
  | String c rest => Ascii.eqb c "/" && only_slashes rest
  end.

(** A dependency whose version is a local path: it starts with a dot. *)
Definition is_local_dep (dep : package_dep) : bool :=
  match dep_version dep with
  | Some dep_path => Py.startswith dep_path "."
  | None => false
  end.

(** A dependency with a local path has a module among [module_names] that
    contains it. *)
Definition has_parent_module (module_names : list string)
    (dep : package_dep) : Prop :=
  is_local_dep dep = true ->
  exists m, m ∈ module_names /\ _contains_package m (dep_name dep) = true.

(** How [_set_full_local_dep_relpaths] leaves a dependency [dep]: [dep']
    has its name and type; a version that is no local path is kept; a local
    path is joined with the path to the package from the longest locally
    replaced module that contains it, and is kept when that path is empty. *)
Definition completed (module_names : list string) (dep dep' : package_dep)
    : Prop :=
  dep_name dep' = dep_name dep
  /\ dep_type dep' = dep_type dep
  /\ match dep_version dep with
     | None => dep_version dep' = None
     | Some dep_path =>
         if Py.startswith dep_path "." then
           exists parent rel,
             _match_parent_module (dep_name dep) module_names = Some parent
             /\ _path_to_subpackage parent (dep_name dep) = Ok rel
             /\ dep_version dep'
                = Some (if Py.truthy rel then PyPath.join dep_path rel
                        else dep_path)
             /\ exists rest, dep_version dep' = Some (dep_path +:+ rest)
         else dep_version dep' = Some dep_path
     end.

(** No version of the dependencies of [entry] is an absolute POSIX path. *)
Definition relative_versions (entry : package_entry) : Prop :=
  Forall (fun dep => forall version,
            dep_version dep = Some version ->
            Py.startswith version "/" = false)
    (pkg_deps entry).

(** A word of a line: no space in it. *)
Fixpoint no_space (s : string) : bool :=
  match s with
  | EmptyString => true
  | String c rest => negb (Ascii.eqb c " ") && no_space rest
  end.

(** The record of a module [name] at [version]. *)
Definition module_record (name : string) (replaces : option replaces_record)
    (version : string) : module_dep :=
  {| mod_name := name; mod_replaces := replaces; mod_type := "gomod";
     mod_version := version |}.

(** ** Sample inputs *)

(** A module with three packages; [a] imports [b], so [b] is not emitted at
    top level. *)
Definition demo_listing : list package_json :=
  [ {| pkg_ImportPath := Some "fmt"; pkg_Module := None; pkg_Deps := None;
       pkg_Standard := Some (JBool true) |};
    {| pkg_ImportPath := Some "example.com/m/b"; pkg_Module := None;
       pkg_Deps := Some ["fmt"]; pkg_Standard := None |};
    {| pkg_ImportPath := Some "example.com/m/a"; pkg_Module := None;
       pkg_Deps := Some ["fmt"; "example.com/m/b"]; pkg_Standard := None |};
    {| pkg_ImportPath := Some "example.com/m/c"; pkg_Module := None;
       pkg_Deps := None; pkg_Standard := None |} ].

Definition demo_package_info : gmap string dep_info :=
  match _load_list_deps demo_listing with
  | Ok package_info => package_info
  | Raise _ => ∅
  end.

Definition demo_entry (name : string) (deps : list (string * option string))
    : package_entry :=
  {| pkg := {| dep_name := name; dep_type := "go-package";
               dep_version := Some "v1.0.0" |};
     pkg_deps :=
       (fun d => {| dep_name := d.1; dep_type := "go-package";
                    dep_version := d.2 |}) <$> deps |}.



(** A listing whose entry for [example.com/m/internal] carries
    [Standard: false]. *)
Definition standard_false_listing : list package_json :=
  [ {| pkg_ImportPath := Some "example.com/m/internal";
       pkg_Module :=
         Some {| module_Path := Some "example.com/m";
                 module_Version := Some "v1.4.0";
                 module_Replace := None; module_other_keys := ["Main"] |};
       pkg_Deps := None; pkg_Standard := Some (JBool false) |};
    {| pkg_ImportPath := Some "example.com/m"; pkg_Module := None;
       pkg_Deps := Some ["example.com/m/internal"]; pkg_Standard := None |} ].


(** Two caches with the same [list] file, only the first with its lock. *)
Definition cache_with_lock : bundle_dir :=
  {[ ["rsc.io"; "quote"; "@v"; "list"] := "v1.5.2";
     ["rsc.io"; "quote"; "@v"; "list.lock"] := "" ]}.


Definition other_cache_with_lock : bundle_dir :=
  {[ ["rsc.io"; "quote"; "@v"; "list"] := "v1.5.1";
     ["rsc.io"; "quote"; "@v"; "list.lock"] := "";
     ["rsc.io"; "quote"; "@v"; "v1.5.1.mod"] := "module rsc.io/quote" ]}.

(** The commits and tags of the examples, from the repository of
    [test_get_golang_version]. *)
Definition commit_after_v1 : commit :=
  {| hexsha := "e92462c73bbaa21540f7385e90cb08749091b66f";
     committed_date := 1573158576 |}.

Definition repo_after_v1 : repo :=
  {| tags_points_at := []; tags_merged := ["v1.0.0"] |}.

Definition commit_after_alpha : commit :=
  {| hexsha := "863073fae6efd5e04bb972a05db0b0706ec8276e";
     committed_date := 1573159250 |}.

Definition repo_after_alpha : repo :=
  {| tags_points_at := [];
     tags_merged := ["v1.0.0"; "v2.0.0"; "v2.1.0"; "v2.2.0-alpha"] |}.

(** A commit that carries a v0 tag and a v1 tag. *)
Definition repo_v0_and_v1 : repo :=
  {| tags_points_at := ["v0.3.0"; "v1.0.0"];
     tags_merged := ["v0.3.0"; "v1.0.0"] |}.


(** The records of the tests of [_set_full_local_dep_relpaths]. *)
Definition module_at (name version : string) : module_dep :=
  {| mod_name := name; mod_replaces := None; mod_type := "gomod";
     mod_version := version |}.

Definition package_at (name version : string) : package_dep :=
  {| dep_name := name; dep_type := "go-package"; dep_version := Some version |}.


(** Closes a decidable goal on concrete data by evaluating its decision
    procedure. *)
Ltac by_decide := apply (bool_decide_unpack _); vm_compute; exact I.

(** * Properties *)

(** ** The vendoring decision table *)

(** C7. The decision follows the flag table. Without either vendor flag, a
    [vendor] directory under the strict configuration raises
    [PackageRejected], and every other case proceeds without vendoring;
    [gomod-vendor] without [gomod-vendor-check] vendors and may modify;
    [gomod-vendor-check] vendors, and may modify exactly when nothing exists
    at [vendor] (so only when the vendor directory does not exist yet); with
    both flags and an existing vendor directory the decision is to vendor
    without modifying. *)
Theorem should_vendor_deps_table (flags : list string) (vendor : path_state)
    (strict : bool) :
  ("gomod-vendor" ∉ flags -> "gomod-vendor-check" ∉ flags ->
     (strict = true -> vendor = IsDir ->
        exists reason,
          _should_vendor_deps flags vendor strict = Raise (PackageRejected reason))
     /\ (strict = false \/ vendor <> IsDir ->
        _should_vendor_deps flags vendor strict = Ok (false, false)))
  /\ ("gomod-vendor" ∈ flags -> "gomod-vendor-check" ∉ flags ->
        _should_vendor_deps flags vendor strict = Ok (true, true))
  /\ ("gomod-vendor-check" ∈ flags ->
        exists can_make_changes,
          _should_vendor_deps flags vendor strict = Ok (true, can_make_changes)
          /\ (can_make_changes = true <-> vendor = Missing)
          /\ (can_make_changes = true -> vendor <> IsDir))
  /\ ("gomod-vendor" ∈ flags -> "gomod-vendor-check" ∈ flags -> vendor = IsDir ->
        _should_vendor_deps flags vendor strict = Ok (true, false)).
Proof.
  unfold _should_vendor_deps.
  split; [| split; [| split]].
  - intros Hv Hc.
    rewrite !bool_decide_eq_false_2 by assumption.
    split.
    + intros -> ->. simpl. eauto.
    + intros [-> | Hdir]; [reflexivity |].
      destruct vendor; try congruence; destruct strict; reflexivity.
  - intros Hv Hc.
    rewrite (bool_decide_eq_false_2 _ Hc), (bool_decide_eq_true_2 _ Hv).
    reflexivity.
  - intros Hc. rewrite (bool_decide_eq_true_2 _ Hc).
    exists (negb (path_exists vendor)).
    destruct vendor; simpl; repeat split; congruence.
  - intros _ Hc ->. rewrite (bool_decide_eq_true_2 _ Hc). reflexivity.
Qed.

Lemma should_vendor_deps_table_witness :
  _should_vendor_deps ["gomod-vendor"; "gomod-vendor-check"] IsDir true
    = Ok (true, false)
  /\ _should_vendor_deps ["gomod-vendor"; "cgo-disable"] IsDir true
    = Ok (true, true)
  /\ (exists reason,
        _should_vendor_deps ["force-gomod-tidy"] IsDir true
          = Raise (PackageRejected reason)).
Proof.
  split; [| split].
  - apply (proj2 (proj2 (proj2
      (should_vendor_deps_table ["gomod-vendor"; "gomod-vendor-check"] IsDir true))));
      [by_decide | by_decide | reflexivity].
  - apply (proj1 (proj2
      (should_vendor_deps_table ["gomod-vendor"; "cgo-disable"] IsDir true)));
      by_decide.
  - apply (proj1 (should_vendor_deps_table ["force-gomod-tidy"] IsDir true));
      [by_decide | by_decide | reflexivity | reflexivity].
Defined.


(** ** Python string primitives *)

Lemma str_app_nil_l (s : string) : "" +:+ s = s.
Proof. reflexivity. Qed.

Lemma str_app_cons (a : ascii) (s r : string) :
  String a s +:+ r = String a (s +:+ r).
Proof. reflexivity. Qed.

Lemma str_app_nil_r (s : string) : s +:+ "" = s.
Proof. induction s as [| a s IH]; [done |]. by rewrite str_app_cons, IH. Qed.

Lemma str_app_assoc (s r t : string) : (s +:+ r) +:+ t = s +:+ r +:+ t.
Proof.
  induction s as [| a s IH]; [done |]. by rewrite !str_app_cons, IH.
Qed.

Lemma startswith_nil (s : string) : Py.startswith s "" = true.
Proof. by destruct s. Qed.

Lemma startswith_cons (a b : ascii) (s p : string) :
  Py.startswith (String a s) (String b p)
    = Ascii.eqb a b && Py.startswith s p.
Proof. reflexivity. Qed.

Lemma startswith_spec (s p : string) :
  Py.startswith s p = true <-> exists r, s = p +:+ r.
Proof.
  revert s. induction p as [| b p IH]; intros s.
  - rewrite startswith_nil. split; [intros _; by exists s | done].
  - destruct s as [| a s]; [| rewrite startswith_cons].
    + split; [done | intros [r Hr]; by rewrite str_app_cons in Hr].
    + rewrite andb_true_iff, Ascii.eqb_eq, IH. split.
      * intros [-> [r ->]]. exists r. by rewrite str_app_cons.
      * intros [r Hr]. rewrite str_app_cons in Hr.
        injection Hr as -> ->. eauto.
Qed.

Lemma startswith_app (s p q : string) :
  Py.startswith s (p +:+ q) = true -> Py.startswith s p = true.
Proof.
  rewrite !startswith_spec. intros [r ->].
  exists (q +:+ r). by rewrite str_app_assoc.
Qed.

Example split_on_spaces :
  Py.split " " "k8s.io/metrics v0.0.0 => ./staging/src/k8s.io/metrics"
  = ["k8s.io/metrics"; "v0.0.0"; "=>"; "./staging/src/k8s.io/metrics"]
  /\ Py.split " " "a  b" = ["a"; ""; "b"]
  /\ Py.split " " "" = [""].
Proof. repeat split; reflexivity. Qed.

Example replace_subpath :
  Py.replace "submodule/v2.5.1" "submodule/v" "" = "2.5.1"
  /\ Py.replace "submodule/v2.5.1" "submodule/" "" = "v2.5.1"
  /\ Py.replace "aXXbXXXc" "XX" "-" = "a-b-Xc".
Proof. repeat split; reflexivity. Qed.

Example readlines_line_ends :
  PyFile.readlines
    ("a" +:+ String PyFile.CR (String PyFile.LF "b")
     +:+ String PyFile.CR "c" +:+ String PyFile.LF (String PyFile.LF "d"))
  = [ String "a" (String PyFile.LF ""); String "b" (String PyFile.LF "");
      String "c" (String PyFile.LF ""); String PyFile.LF ""; "d" ]
  /\ PyFile.rstrip ("v1.0.0 " +:+ String PyFile.LF "") = "v1.0.0"
  /\ PyFile.rstrip " a b" = " a b".
Proof. repeat split; reflexivity. Qed.

(** ** The vendor parser *)

Section ModulesTxtFacts.
Import ModulesTxt.

Lemma module_line_starts_with_hash (line : string) :
  is_module_line line = true -> Py.startswith line "#" = true.
Proof.
  unfold is_module_line. apply (startswith_app line "#" " ").
Qed.

Lemma module_line_not_package (line : string) :
  is_module_line line = true -> is_package_line line = false.
Proof.
  intros H. unfold is_package_line.
  rewrite (module_line_starts_with_hash _ H). reflexivity.
Qed.

(** What the loop leaves behind when it runs to the end: every module line
    has been appended, and the keys of [has_packages] are the earlier ones,
    the module that was current when the loop started if a package line
    follows at once, and the module lines that have a package of their own. *)
Lemma parse_lines_ok (lines : list string) :
  forall (mods : list string) (hp : gmap string bool) mods' hp',
    parse_lines lines mods hp = Ok (mods', hp') ->
    mods' = mods ++ all_module_lines lines
    /\ forall m, hp' !! m = Some true <->
         (hp !! m = Some true
          \/ (last mods = Some m /\ body_has_package lines = true)
          \/ m ∈ modules_with_packages lines).
Proof.
  induction lines as [| line rest IH]; intros mods hp mods' hp' Hrun.
  - simpl in Hrun. injection Hrun as <- <-. split.
    + by rewrite app_nil_r.
    + intros m. simpl. split; [auto |].
      intros [H | [[_ H] | H]]; [done | done | by apply elem_of_nil in H].
  - simpl in Hrun.
    destruct (Py.startswith line "#") eqn:Hhash; simpl in Hrun.
    + destruct (Py.startswith line "# ") eqn:Hmod.
      * (* a module line *)
        apply IH in Hrun as [-> Hkeys]. split.
        { simpl. unfold is_module_line. rewrite Hmod.
          by rewrite <- app_assoc. }
        intros m. rewrite Hkeys. simpl. unfold is_module_line. rewrite Hmod.
        rewrite last_snoc.
        destruct (body_has_package rest); simpl.
        -- rewrite elem_of_cons. split.
           ++ intros [H | [[[= <-] _] | H]]; auto.
           ++ intros [H | [[_ [=]] | [-> | H]]]; auto.
        -- split.
           ++ intros [H | [[_ [=]] | H]]; auto.
           ++ intros [H | [[_ [=]] | H]]; auto.
      * destruct (Py.startswith line "##") eqn:Hmark; simpl in Hrun;
          [| discriminate].
        (* a marker line *)
        apply IH in Hrun as [-> Hkeys]. split.
        { simpl. unfold is_module_line. by rewrite Hmod. }
        intros m. rewrite Hkeys. simpl.
        unfold is_module_line, is_package_line. rewrite Hmod, Hhash. done.
    + (* a package line *)
      assert (Hmod : is_module_line line = false).
      { destruct (is_module_line line) eqn:E; [| done].
        apply module_line_starts_with_hash in E. congruence. }
      destruct (last mods) as [parent |] eqn:Hlast; [| discriminate].
      apply IH in Hrun as [-> Hkeys]. split.
      { simpl. by rewrite Hmod. }
      intros m. rewrite Hkeys. simpl.
      unfold is_package_line. rewrite Hmod, Hhash. simpl.
      rewrite lookup_insert. case_decide as Heq.
      * subst m. split; [auto | intros _; by left].
      * split.
        -- intros [H | [[H _] | H]]; [auto | | auto].
           right; left. split; [congruence | done].
        -- intros [H | [[[= ->] _] | H]]; [auto | done | auto].
Qed.

(** The loop raises exactly on a malformed rest: an unknown line, or a
    package line reached while no module line has been read. *)
Lemma parse_lines_raise (lines : list string) :
  forall (mods : list string) (hp : gmap string bool),
    (exists e, parse_lines lines mods hp = Raise e) <->
    (exists pre line post,
        lines = pre ++ line :: post
        /\ ((is_package_line line = true /\ mods = []
             /\ Forall (fun l => is_module_line l = false) pre)
            \/ is_unknown_line line = true)).
Proof.
  induction lines as [| line rest IH]; intros mods hp.
  - simpl. split; [intros [e [=]] |].
    intros (pre & l & post & Heq & _). by destruct pre.
  - simpl. unfold is_unknown_line, is_package_line, is_marker_line.
    destruct (Py.startswith line "#") eqn:Hhash; simpl.
    + destruct (is_module_line line) eqn:Hmod; unfold is_module_line in Hmod;
        rewrite Hmod.
      * (* a module line *)
        rewrite IH. split.
        -- intros (pre & l & post & -> & [(_ & Hnil & _) | Hbad]).
           { by destruct mods. }
           exists (line :: pre), l, post. split; [done | by right].
        -- intros (pre & l & post & Heq & Hcase).
           destruct pre as [| x pre]; simpl in Heq; injection Heq as <- ->.
           { destruct Hcase as [(Hpkg & _) | Hbad].
             - unfold is_package_line in Hpkg. by rewrite Hhash in Hpkg.
             - unfold is_unknown_line, is_module_line in Hbad.
               rewrite Hmod, andb_false_r in Hbad. done. }
           destruct Hcase as [(_ & _ & Hall) | Hbad].
           { apply Forall_cons in Hall as [Hx _].
             unfold is_module_line in Hx. congruence. }
           exists pre, l, post. split; [done | by right].
      * destruct (Py.startswith line "##") eqn:Hmark; simpl.
        -- (* a marker line *)
           rewrite IH. split.
           ++ intros (pre & l & post & -> & Hcase).
              exists (line :: pre), l, post. split; [done |].
              destruct Hcase as [(Hpkg & Hnil & Hall) | Hbad]; [left | by right].
              repeat split; [done | done |].
              apply Forall_cons. split; [| done].
              unfold is_module_line. done.
           ++ intros (pre & l & post & Heq & Hcase).
              destruct pre as [| x pre]; simpl in Heq; injection Heq as <- ->.
              { destruct Hcase as [(Hpkg & _) | Hbad].
                - unfold is_package_line in Hpkg. by rewrite Hhash in Hpkg.
                - unfold is_unknown_line, is_marker_line in Hbad.
                  rewrite Hmark, andb_false_r in Hbad. done. }
              exists pre, l, post. split; [done |].
              destruct Hcase as [(Hpkg & Hnil & Hall) | Hbad]; [left | by right].
              apply Forall_cons in Hall as [_ Hall]. done.
        -- (* an unknown line *)
           split; [| eauto]. intros _.
           exists [], line, rest. split; [done |]. right.
           unfold is_unknown_line, is_module_line, is_marker_line.
           by rewrite Hhash, Hmod, Hmark.
    + (* a package line *)
      assert (Hmod : is_module_line line = false).
      { destruct (is_module_line line) eqn:E; [| done].
        apply module_line_starts_with_hash in E. congruence. }
      destruct (last mods) as [parent |] eqn:Hlast.
      * assert (Hne : mods <> []) by (intros ->; discriminate).
        rewrite IH. split.
        -- intros (pre & l & post & -> & [(_ & Hnil & _) | Hbad]); [done |].
           exists (line :: pre), l, post. split; [done | by right].
        -- intros (pre & l & post & Heq & Hcase).
           destruct pre as [| x pre]; simpl in Heq; injection Heq as <- ->.
           { destruct Hcase as [(_ & Hnil & _) | Hbad]; [done |].
             unfold is_unknown_line in Hbad. by rewrite Hhash in Hbad. }
           destruct Hcase as [(_ & Hnil & _) | Hbad]; [done |].
           exists pre, l, post. split; [done | by right].
      * split; [| eauto]. intros _.
        exists [], line, rest. split; [done |]. left.
        apply last_None in Hlast.
        unfold is_package_line. rewrite Hhash. done.
Qed.

Lemma parse_lines_error_kind (lines : list string) :
  forall (mods : list string) (hp : gmap string bool) e,
    parse_lines lines mods hp = Raise e -> exists msg, e = UnexpectedFormat msg.
Proof.
  induction lines as [| line rest IH]; intros mods hp e; simpl; [done |].
  destruct (Py.startswith line "#"); simpl.
  - destruct (Py.startswith line "# "); [apply IH |].
    destruct (Py.startswith line "##"); simpl; [apply IH |].
    intros [= <-]. unfold unexpected_line. eauto.
  - destruct (last mods); [apply IH |].
    intros [= <-]. unfold no_parent_module. eauto.
Qed.

(** C9 (as the code has it). Parsing either raises [UnexpectedFormat], and
    does so exactly when the file is malformed (a package line before any
    module line, or a line that starts with [#] but with neither [# ] nor
    [##]), or returns, in order and with the prefix stripped, the module
    lines whose text is that of a module line with a package line of its
    own; marker lines change nothing. *)
Theorem module_lines_from_modules_txt_spec (lines : list string) :
  (malformed lines
   /\ exists msg,
        _module_lines_from_modules_txt lines = Raise (UnexpectedFormat msg))
  \/ (~ malformed lines
      /\ _module_lines_from_modules_txt lines
         = Ok (filter (fun m => m ∈ modules_with_packages lines)
                 (all_module_lines lines))).
Proof.
  unfold _module_lines_from_modules_txt, malformed.
  destruct (parse_lines lines [] ∅) as [[mods hp] | e] eqn:Hrun.
  - right. split.
    + intros (pre & l & post & Heq & Hcase).
      assert (exists e, parse_lines lines [] ∅ = Raise e) as [e He].
      { apply parse_lines_raise. exists pre, l, post. split; [done |].
        destruct Hcase as [[Hpkg Hall] | Hbad]; [left | by right]. done. }
      congruence.
    + apply parse_lines_ok in Hrun as [-> Hkeys]. simpl. f_equal.
      apply list_filter_iff. intros m. rewrite Hkeys.
      rewrite lookup_empty. simpl.
      split; [intros [? | [[? _] | ?]]; done | auto].
  - left. split.
    + assert (exists e, parse_lines lines [] ∅ = Raise e) as He by eauto.
      apply parse_lines_raise in He as (pre & l & post & Heq & Hcase).
      exists pre, l, post. split; [done |].
      destruct Hcase as [(? & _ & ?) | ?]; [left | right]; done.
    + apply parse_lines_error_kind in Hrun as [msg ->]. by exists msg.
Qed.

(** Read by occurrence, the specification fails when a module line is
    repeated: the dictionary is keyed by the text of the line, so the second
    occurrence is returned although no package line follows it. *)
Lemma module_lines_repeated_line_kept :
  _module_lines_from_modules_txt ["# a v1"; "a/pkg"; "# b v1"; "# a v1"]
    = Ok ["a v1"; "a v1"]
  /\ modules_with_packages ["# a v1"; "a/pkg"; "# b v1"; "# a v1"] = ["a v1"].
Proof. split; reflexivity. Qed.

Lemma filter_ext_elem_of {A : Type} (P Q : A -> Prop)
    `{!forall x, Decision (P x), !forall x, Decision (Q x)} (l : list A) :
  (forall x, x ∈ l -> P x <-> Q x) -> filter P l = filter Q l.
Proof.
  induction l as [| x l IH]; intros Hsame; [done |].
  rewrite !filter_cons.
  assert (filter P l = filter Q l) as ->.
  { apply IH. intros y Hy. apply Hsame. by right. }
  destruct (decide (P x)) as [HP | HP], (decide (Q x)) as [HQ | HQ];
    try done; exfalso; apply (Hsame x) in HP || apply (Hsame x) in HQ;
    by try left.
Qed.

Lemma filter_elem_of_sublist {A : Type} `{EqDecision A} (s l : list A) :
  s `sublist_of` l -> NoDup l -> filter (fun x => x ∈ s) l = s.
Proof.
  induction 1 as [| x s l Hsub IH | x s l Hsub IH]; [done | |];
    intros [Hx Hl]%NoDup_cons; rewrite filter_cons.
  - rewrite decide_True by (by left). f_equal.
    transitivity (filter (fun y => y ∈ s) l); [| by apply IH].
    apply filter_ext_elem_of. intros y Hy. rewrite elem_of_cons.
    split; [| by right]. intros [-> | ?]; done.
  - rewrite decide_False; [by apply IH |].
    intros Hin. apply Hx. by eapply elem_of_sublist.
Qed.

Lemma modules_with_packages_sublist (lines : list string) :
  modules_with_packages lines `sublist_of` all_module_lines lines.
Proof.
  induction lines as [| line rest IH]; simpl; [done |].
  destruct (is_module_line line); [| done].
  destruct (body_has_package rest); simpl;
    [by apply sublist_skip | by apply sublist_cons].
Qed.

(** Where no module line is repeated, what is returned is one entry for
    each module line that is followed by a package line of its own. *)
Lemma module_lines_distinct (lines : list string) :
  NoDup (all_module_lines lines) ->
  filter (fun m => m ∈ modules_with_packages lines) (all_module_lines lines)
  = modules_with_packages lines.
Proof.
  apply filter_elem_of_sublist, modules_with_packages_sublist.
Qed.

(** The layout of [test_module_lines_from_modules_txt]. *)
Example module_lines_from_modules_txt_test :
  _module_lines_from_modules_txt
    [ "# github.com/org/some-module v0.0.0 => ./example/src/some-module";
      "## explicit";
      "github.com/org/some-module";
      "# golang.org/x/text v0.0.0-20170915032832-14c0d48ead0c";
      "golang.org/x/text/internal/tag";
      "golang.org/x/text/language";
      "# rsc.io/quote v1.5.2 => rsc.io/quote v1.5.1";
      "## explicit";
      "rsc.io/quote";
      "# rsc.io/sampler v1.3.0";
      "rsc.io/sampler";
      "# github.com/org/some-module => ./example/src/some-module";
      "# rsc.io/quote => rsc.io/quote v1.5.1" ]
  = Ok [ "github.com/org/some-module v0.0.0 => ./example/src/some-module";
         "golang.org/x/text v0.0.0-20170915032832-14c0d48ead0c";
         "rsc.io/quote v1.5.2 => rsc.io/quote v1.5.1";
         "rsc.io/sampler v1.3.0" ].
Proof. reflexivity. Qed.

End ModulesTxtFacts.

(** ** The package graph *)

Section PackageGraph.
Variable package_info : gmap string dep_info.
Variable module_version : string.

Lemma lookup_info_ok (name : string) (info : dep_info) :
  lookup_info package_info name = Ok info -> package_info !! name = Some info.
Proof.
  unfold lookup_info. destruct (package_info !! name); [| done].
  by intros [= ->].
Qed.

Lemma pkg_level_deps_loop_ok (deps : list string) :
  forall processed acc processed' acc',
    pkg_level_deps_loop package_info module_version deps processed acc
      = Ok (processed', acc') ->
    processed' = list_to_set deps ∪ processed
    /\ exists new,
         acc' = acc ++ new
         /\ dep_name <$> new = deps
         /\ Forall (dep_from_listing package_info module_version) new.
Proof.
  induction deps as [| name rest IH]; intros processed acc processed' acc'.
  - simpl. intros [= <- <-]. split; [set_solver |].
    exists []. by rewrite app_nil_r.
  - simpl. destruct (lookup_info package_info name) as [info |] eqn:Hinfo;
      [| done].
    simpl. intros Hrun. apply IH in Hrun as [-> (new & -> & Hnames & Hall)].
    split; [set_solver |].
    exists ({| dep_name := name; dep_type := "go-package";
               dep_version := assign_version info module_version |} :: new).
    rewrite <- app_assoc. split; [done |].
    split; [by rewrite fmap_cons, Hnames |].
    constructor; [| done].
    exists info. simpl. eauto using lookup_info_ok.
Qed.

(** The invariant of the outer loop: what it appends was not in the set it
    started from, nor among the listed dependencies of what it appended
    before; the set grows by exactly those listed dependencies; and a name
    of the list that is not appended is in the final set. *)
Lemma packages_loop_ok (package_list : list string) :
  forall processed acc processed' acc',
    packages_loop package_info module_version package_list processed acc
      = Ok (processed', acc') ->
    exists new,
      acc' = acc ++ new
      /\ (forall x, x ∈ processed' <->
            x ∈ processed
            \/ exists Q, Q ∈ new
                 /\ x ∈ listed_deps package_info (dep_name (pkg Q)))
      /\ (forall before P after, new = before ++ P :: after ->
            (dep_name (pkg P) ∉ processed)
            /\ (forall Q, Q ∈ before ->
                  dep_name (pkg P)
                    ∉ listed_deps package_info (dep_name (pkg Q))))
      /\ Forall (entry_from_listing package_info module_version) new
      /\ (forall n, n ∈ package_list ->
            n ∈ processed' \/ n ∈ ((dep_name ∘ pkg) <$> new))
      /\ ((dep_name ∘ pkg) <$> new) `sublist_of` package_list.
Proof.
  induction package_list as [| name rest IH];
    intros processed acc processed' acc'.
  - simpl. intros [= <- <-]. exists []. rewrite app_nil_r.
    repeat split; try done.
    + auto.
    + intros [? | (Q & HQ & _)]; [done | by apply elem_of_nil in HQ].
    + by destruct before.
    + by destruct before.
    + intros n Hn. by apply elem_of_nil in Hn.
  - simpl. case_bool_decide as Hseen.
    + (* already listed as a dependency: skipped *)
      intros Hrun. apply IH in Hrun
        as (new & -> & Hset & Hsplit & Hall & Hcover & Hsub).
      exists new. repeat split; try done.
      * apply Hset.
      * apply Hset.
      * by eapply Hsplit.
      * intros Q HQ. by eapply Hsplit.
      * intros n [-> | Hn]%elem_of_cons; [| by apply Hcover].
        left. apply Hset. by left.
      * by apply sublist_cons.
    + destruct (lookup_info package_info name) as [info |] eqn:Hinfo;
        [| done].
      simpl.
      destruct (pkg_level_deps_loop package_info module_version
                  (default [] (info_Deps info)) processed [])
        as [[processed1 deps1] |] eqn:Hinner; [| done].
      simpl. apply lookup_info_ok in Hinfo.
      apply pkg_level_deps_loop_ok in Hinner
        as [-> (new1 & -> & Hnames & Hdeps)].
      intros Hrun. apply IH in Hrun
        as (new & -> & Hset & Hsplit & Hall & Hcover & Hsub).
      set (E := {| pkg := {| dep_name := name; dep_type := "go-package";
                             dep_version := Some module_version |};
                   pkg_deps := [] ++ new1 |}) in *.
      assert (Hlisted : listed_deps package_info name
                          = default [] (info_Deps info)).
      { unfold listed_deps. by rewrite Hinfo. }
      exists (E :: new). rewrite <- app_assoc. split; [done |].
      split; [| split; [| split; [| split]]].
      * intros x. rewrite Hset. rewrite elem_of_union, elem_of_list_to_set.
        split.
        -- intros [[Hx | Hx] | (Q & HQ & Hx)].
           ++ right. exists E. split; [by left |]. simpl. by rewrite Hlisted.
           ++ by left.
           ++ right. exists Q. split; [by right | done].
        -- intros [Hx | (Q & [-> | HQ]%elem_of_cons & Hx)].
           ++ left. by right.
           ++ left. left. simpl in Hx. by rewrite Hlisted in Hx.
           ++ right. eauto.
      * intros before P after Heq.
        destruct before as [| E' before]; simpl in Heq;
          injection Heq as <- ->.
        { split; [done |]. intros Q HQ. by apply elem_of_nil in HQ. }
        destruct (Hsplit _ _ _ eq_refl) as [Hnot Hearlier].
        rewrite elem_of_union, elem_of_list_to_set in Hnot.
        split; [tauto |].
        intros Q [-> | HQ]%elem_of_cons; [| by apply Hearlier].
        simpl. rewrite Hlisted. tauto.
      * constructor; [| done].
        unfold entry_from_listing. simpl.
        rewrite Hinfo, Hlisted. eauto.
      * intros n [-> | Hn]%elem_of_cons.
        -- right. simpl. by left.
        -- destruct (Hcover n Hn) as [? | ?]; [by left |].
           right. simpl. by right.
      * simpl. by apply sublist_skip.
Qed.

Lemma resolve_packages_ok (package_list : list string)
    (packages : list package_entry) :
  resolve_packages package_info module_version package_list = Ok packages ->
  (forall before P after, packages = before ++ P :: after ->
     forall Q, Q ∈ before ->
       dep_name (pkg P) ∉ listed_deps package_info (dep_name (pkg Q)))
  /\ Forall (entry_from_listing package_info module_version) packages
  /\ (forall n, n ∈ package_list ->
        n ∈ ((dep_name ∘ pkg) <$> packages)
        \/ exists Q, Q ∈ packages
             /\ n ∈ listed_deps package_info (dep_name (pkg Q)))
  /\ ((dep_name ∘ pkg) <$> packages) `sublist_of` package_list.
Proof.
  unfold resolve_packages.
  destruct (packages_loop package_info module_version package_list ∅ [])
    as [[processed acc] |] eqn:Hrun; [| done].
  simpl. intros [= <-].
  apply packages_loop_ok in Hrun
    as (new & -> & Hset & Hsplit & Hall & Hcover & Hsub).
  simpl. repeat split; try done.
  - intros before P after Heq Q HQ. by eapply Hsplit.
  - intros n Hn. destruct (Hcover n Hn) as [Hin | Hin]; [| by left].
    apply Hset in Hin as [Hin | Hin]; [| by right].
    by apply not_elem_of_empty in Hin.
Qed.

End PackageGraph.

(** C8. Within one resolve every package emitted at top level is absent from
    the listed dependencies of every top-level package emitted before it
    (and so from the names of the dependency records emitted with them);
    conversely an enumerated package is left out only when it is among the
    listed dependencies of an emitted one, and the emitted packages keep
    the order of the enumeration. *)
Theorem emitted_package_not_in_earlier_deps
    (package_info : gmap string dep_info) (module_version : string)
    (package_list : list string) (packages : list package_entry) :
  resolve_packages package_info module_version package_list = Ok packages ->
  (forall before P after, packages = before ++ P :: after ->
     forall Q, Q ∈ before ->
       (dep_name (pkg P) ∉ listed_deps package_info (dep_name (pkg Q)))
       /\ (dep_name (pkg P) ∉ (dep_name <$> pkg_deps Q)))
  /\ (forall n, n ∈ package_list ->
        n ∈ ((dep_name ∘ pkg) <$> packages)
        \/ exists Q, Q ∈ packages
             /\ n ∈ listed_deps package_info (dep_name (pkg Q)))
  /\ ((dep_name ∘ pkg) <$> packages) `sublist_of` package_list.
Proof.
  intros Hrun.
  apply resolve_packages_ok in Hrun as (Hsplit & Hall & Hcover & Hsub).
  repeat split; try done.
  - by eapply Hsplit.
  - assert (HQ : entry_from_listing package_info module_version Q).
    { rewrite Forall_forall in Hall. apply Hall. subst packages.
      apply elem_of_app. by left. }
    destruct HQ as (_ & _ & -> & _). by eapply Hsplit.
Qed.

Example demo_resolve_packages :
  resolve_packages demo_package_info "v1.0.0"
    ["example.com/m/a"; "example.com/m/b"; "example.com/m/c"]
  = Ok [ demo_entry "example.com/m/a"
           [("fmt", None); ("example.com/m/b", Some "v1.0.0")];
         demo_entry "example.com/m/c" [] ].
Proof. vm_compute. reflexivity. Qed.

Lemma emitted_package_not_in_earlier_deps_witness :
  ("example.com/m/c" ∉ listed_deps demo_package_info "example.com/m/a")
  /\ ("example.com/m/c" ∉ ["fmt"; "example.com/m/b"]).
Proof.
  apply (proj1 (emitted_package_not_in_earlier_deps demo_package_info "v1.0.0"
                  ["example.com/m/a"; "example.com/m/b"; "example.com/m/c"]
                  _ demo_resolve_packages)
           [demo_entry "example.com/m/a"
              [("fmt", None); ("example.com/m/b", Some "v1.0.0")]]
           (demo_entry "example.com/m/c" []) [] eq_refl
           (demo_entry "example.com/m/a"
              [("fmt", None); ("example.com/m/b", Some "v1.0.0")])).
  constructor.
Defined.

(** ** Versions of package-level dependencies *)

Lemma or_else_assoc (a b c : option string) :
  Py.or_else (Py.or_else a b) c = Py.or_else a (Py.or_else b c).
Proof.
  unfold Py.or_else. destruct a as [s |]; [| done].
  by destruct (Py.truthy s) eqn:Hs; [rewrite Hs |].
Qed.

(** The version assignment, case by case. *)
Lemma assign_version_cases (info : dep_info) (module_version : string) :
  match info_Standard info with
  | Some _ => assign_version info module_version = None
  | None =>
      match effective_replace info with
      | Some replace =>
          assign_version info module_version
          = Py.or_else (replace_Version replace)
              (Py.or_else (replace_Path replace) (Some module_version))
      | None =>
          assign_version info module_version
          = Py.or_else (info_Module info ≫= module_Version)
              (Some module_version)
      end
  end.
Proof.
  unfold assign_version, effective_replace, _get_dep_version.
  destruct (info_Standard info); [done |].
  destruct (info_Module info) as [module |]; simpl; [| done].
  destruct (module_truthy module) eqn:Htruthy; simpl.
  - destruct (module_Replace module) as [replace |]; simpl; [| done].
    destruct (replace_truthy replace); [| done].
    apply or_else_assoc.
  - unfold module_truthy in Htruthy.
    destruct (module_Version module), (module_Replace module),
      (module_Path module); simpl in *; try done.
Qed.

(** Where the module has no replacement, or the replacement gives a version
    or a path, the assignment is the specification's chain. *)
Lemma assign_version_specified (info : dep_info) (module_version : string) :
  info_Standard info = None ->
  match effective_replace info with
  | Some replace =>
      Py.or_else (replace_Version replace) (replace_Path replace) <> None
      /\ Py.or_else (replace_Version replace) (replace_Path replace) <> Some ""
  | None => True
  end ->
  assign_version info module_version = specified_version info module_version.
Proof.
  intros Hstd Hreplace.
  pose proof (assign_version_cases info module_version) as Hcases.
  rewrite Hstd in Hcases. unfold specified_version.
  unfold effective_replace in *.
  destruct (info_Module info) as [module |]; simpl in *; [| done].
  destruct (module_Replace module) as [replace |]; simpl in *; [| done].
  destruct (replace_truthy replace) eqn:Htruthy.
  - rewrite Hcases. destruct Hreplace as [Hnone Hempty].
    unfold Py.or_else in *.
    destruct (replace_Version replace) as [[| a v] |]; simpl in *; try done;
      destruct (replace_Path replace) as [[| b q] |]; simpl in *; done.
  - rewrite Hcases. unfold replace_truthy in Htruthy.
    destruct (replace_Version replace), (replace_Path replace);
      simpl in *; done.
Qed.






(** ** The listing loader and the [Standard] key *)




Example standard_false_resolve_packages :
  exists package_info,
    _load_list_deps standard_false_listing = Ok package_info
    /\ resolve_packages package_info "v1.4.0" ["example.com/m"]
       = Ok [ {| pkg := {| dep_name := "example.com/m";
                           dep_type := "go-package";
                           dep_version := Some "v1.4.0" |};
                 pkg_deps := [ {| dep_name := "example.com/m/internal";
                                  dep_type := "go-package";
                                  dep_version := None |} ] |} ].
Proof. eexists. split; [reflexivity |]. vm_compute. reflexivity. Qed.


(** ** Reconciling the requested replacements *)

Lemma contains_app_l (prefix msg r : string) :
  Py.contains msg r -> Py.contains (prefix +:+ msg) r.
Proof.
  intros (a & b & ->). exists (prefix +:+ a), b. by rewrite str_app_assoc.
Qed.

Lemma join_contains (sep : string) (l : list string) (x : string) :
  x ∈ l -> Py.contains (Py.join sep l) x.
Proof.
  induction l as [| y l IH]; [by intros ?%elem_of_nil |].
  intros [-> | Hx]%elem_of_cons.
  - destruct l as [| z l]; simpl.
    + exists "", "". by rewrite str_app_nil_r.
    + by exists "", (sep +:+ Py.join sep (z :: l)).
  - destruct l as [| z l]; [by apply elem_of_nil in Hx |].
    change (Py.join sep (y :: z :: l))
      with (y +:+ sep +:+ Py.join sep (z :: l)).
    apply contains_app_l, contains_app_l, IH, Hx.
Qed.

Section Replacements.
Variable replaced_dep_names : gset string.

(** One line either is a replace directive of a requested name, which is
    then recorded as used and emitted with its [replaces] sub-record, or
    leaves the set alone and emits at most a record without [replaces]. *)
Lemma module_line_step_spec (line : string) (used : gset string)
    (deps : list module_dep) (used' : gset string) (deps' : list module_dep) :
  module_line_step replaced_dep_names line used deps = (used', deps') ->
  (exists d,
      deps' = deps ++ [d] /\ records_directive replaced_dep_names line d
      /\ (exists r, mod_replaces d = Some r
                    /\ used' = {[replaces_name r]} ∪ used))
  \/ (used' = used
      /\ (forall old_name old_version new_name new_version,
            replace_directive line old_name old_version new_name new_version ->
            old_name ∉ replaced_dep_names)
      /\ exists new, deps' = deps ++ new
                     /\ Forall (fun d => mod_replaces d = None) new).
Proof.
  unfold module_line_step, records_directive, replace_directive.
  destruct (Py.split " " line) as [| p0 [| p1 [| p2 [| p3 [| p4 [| p5 parts]]]]]];
    simpl.
  1-4,7: intros [= <- <-]; right; split; [done |];
    (split; [intros ???? [=] |]);
    first [ by exists []; rewrite app_nil_r
          | eexists [_]; split; [done | by repeat constructor] ].
  - (* four parts *)
    case_bool_decide; intros [= <- <-]; right; split; try done;
      (split; [intros ???? [=] |]).
    + eexists [_]. split; [done | by repeat constructor].
    + exists []. by rewrite app_nil_r.
  - (* five parts *)
    case_bool_decide as Harrow; [subst p2; case_bool_decide as Hreq |];
      intros [= <- <-].
    + left. eexists. split; [done |]. simpl. split; [by eauto 10 | by eauto].
    + right. split; [done |].
      split; [intros ???? Heq; by simplify_eq |].
      eexists [_]. split; [done | by repeat constructor].
    + right. split; [done |].
      split; [intros ???? Heq; by simplify_eq |].
      exists []. by rewrite app_nil_r.
Qed.

Lemma module_lines_loop_spec (module_lines : list string) :
  forall used deps used' deps',
    module_lines_loop replaced_dep_names module_lines used deps
      = (used', deps') ->
    exists new,
      deps' = deps ++ new
      /\ (forall n, n ∈ used' <->
            n ∈ used
            \/ (n ∈ replaced_dep_names
                /\ exists line old_version new_name new_version,
                     line ∈ module_lines
                     /\ replace_directive line n old_version new_name
                          new_version))
      /\ (forall n, n ∈ used' ->
            n ∈ used
            \/ exists line d r,
                 line ∈ module_lines /\ d ∈ new
                 /\ records_directive replaced_dep_names line d
                 /\ mod_replaces d = Some r /\ replaces_name r = n)
      /\ (forall d r, d ∈ new -> mod_replaces d = Some r ->
            exists line, line ∈ module_lines /\ records_directive replaced_dep_names line d).
Proof.
  induction module_lines as [| line rest IH]; intros used deps used' deps'.
  - simpl. intros [= <- <-]. exists []. rewrite app_nil_r.
    split; [done |]. split; [| split].
    + intros n. split; [auto |].
      intros [? | (_ & l & ? & ? & ? & Hl & _)]; [done |].
      by apply elem_of_nil in Hl.
    + auto.
    + intros d r Hd. by apply elem_of_nil in Hd.
  - simpl.
    destruct (module_line_step replaced_dep_names line used deps)
      as [used1 deps1] eqn:Hstep.
    intros Hrun. apply IH in Hrun as (new & -> & Hused & Hrec & Hrepl).
    apply module_line_step_spec in Hstep
      as [(d & -> & Hd & r & Hr & ->)
         | (-> & Hnone & new1 & -> & Hplain)].
    + (* the line is a directive of a requested name *)
      exists (d :: new). rewrite <- app_assoc. split; [done |].
      pose proof Hd as (old_name & old_version & Hdir & Hreq & Hrd).
      assert (replaces_name r = old_name) as Hname by (by simplify_eq).
      split; [| split].
      * intros n. rewrite Hused, elem_of_union, elem_of_singleton. split.
        -- intros [[-> | Hn] | (Hn & l & v & n' & v' & Hl & Hdir')].
           ++ right. rewrite Hname. split; [done |].
              exists line, old_version, (mod_name d), (mod_version d).
              split; [by left | done].
           ++ by left.
           ++ right. split; [done |]. exists l, v, n', v'.
              split; [by right | done].
        -- intros [Hn | (Hn & l & v & n' & v' & [-> | Hl]%elem_of_cons & Hdir')].
           ++ left. by right.
           ++ left. left. unfold replace_directive in *. congruence.
           ++ right. split; [done |]. by exists l, v, n', v'.
      * intros n Hn. apply Hrec in Hn as [[Hn | Hn]%elem_of_union | Hn].
        -- right. apply elem_of_singleton in Hn as ->.
           exists line, d, r. repeat split; [by left | by left | done ..].
        -- by left.
        -- right. destruct Hn as (l & d' & r' & Hl & Hd' & Hrest).
           exists l, d', r'. repeat split; [by right | by right | naive_solver ..].
      * intros d' r' [-> | Hd']%elem_of_cons Hr'.
        -- exists line. split; [by left | done].
        -- destruct (Hrepl d' r' Hd' Hr') as (l & Hl & Hrest).
           exists l. split; [by right | done].
    + (* any other line *)
      exists (new1 ++ new). rewrite <- app_assoc. split; [done |].
      split; [| split].
      * intros n. rewrite Hused. split.
        -- intros [Hn | (Hn & l & v & n' & v' & Hl & Hdir')]; [by left |].
           right. split; [done |]. exists l, v, n', v'.
           split; [by right | done].
        -- intros [Hn | (Hn & l & v & n' & v' & [-> | Hl]%elem_of_cons & Hdir')];
             [by left | | ].
           ++ by apply Hnone in Hdir'.
           ++ right. split; [done |]. by exists l, v, n', v'.
      * intros n Hn. apply Hrec in Hn as [Hn | Hn]; [by left |].
        right. destruct Hn as (l & d' & r' & Hl & Hd' & Hrest).
        exists l, d', r'. rewrite elem_of_app.
        repeat split; [by right | by right | naive_solver ..].
      * intros d' r' [Hd' | Hd']%elem_of_app Hr'.
        -- rewrite Forall_forall in Hplain. apply Hplain in Hd'. congruence.
        -- destruct (Hrepl d' r' Hd' Hr') as (l & Hl & Hrest).
           exists l. split; [by right | done].
Qed.

End Replacements.

(** C3. The honored names are the requested names that the module listing
    reports in a replace directive [name version => new_name new_version].
    The resolve raises [PackageRejected] exactly when some requested name is
    not honored, and the message then lists the names of requested minus
    honored; otherwise it returns the module records. For every requested
    replacement, either its name is honored and a module record carries the
    [replaces] sub-record with the old name and the old version, or the
    resolve raises [PackageRejected] with a message that contains its
    name. *)
Theorem replacements_honored_or_rejected
    (dep_replacements : list dep_replacement) (module_lines : list string) :
  let requested := requested_names dep_replacements in
  let used := honored dep_replacements module_lines in
  let records := (module_lines_loop requested module_lines ∅ []).2 in
  (forall n, n ∈ used <->
     n ∈ requested
     /\ exists line old_version new_name new_version,
          line ∈ module_lines
          /\ replace_directive line n old_version new_name new_version)
  /\ ((requested ∖ used <> ∅
       /\ resolve_module_deps dep_replacements module_lines
          = Raise (PackageRejected
                     (replacements_do_not_apply (requested ∖ used)))
       /\ forall n, n ∈ requested ∖ used ->
            Py.contains (replacements_do_not_apply (requested ∖ used)) n)
      \/ (requested ∖ used = ∅
          /\ resolve_module_deps dep_replacements module_lines = Ok records))
  /\ (forall r, r ∈ dep_replacements ->
        (replacement_name r ∈ used
         /\ exists line d old_version,
              line ∈ module_lines /\ d ∈ records
              /\ replace_directive line (replacement_name r) old_version
                   (mod_name d) (mod_version d)
              /\ mod_replaces d
                 = Some {| replaces_type := "gomod";
                           replaces_name := replacement_name r;
                           replaces_version := old_version |})
        \/ ((replacement_name r ∉ used)
            /\ exists msg,
                 resolve_module_deps dep_replacements module_lines
                   = Raise (PackageRejected msg)
                 /\ Py.contains msg (replacement_name r))).
Proof.
  intros requested used records.
  unfold resolve_module_deps. fold requested.
  subst used records. unfold honored. fold requested.
  destruct (module_lines_loop requested module_lines ∅ [])
    as [used deps] eqn:Hloop.
  simpl.
  apply module_lines_loop_spec in Hloop as (new & -> & Hused & Hrec & _).
  simpl in *.
  assert (Hmsg : forall n, n ∈ requested ∖ used ->
            Py.contains (replacements_do_not_apply (requested ∖ used)) n).
  { intros n Hn. unfold replacements_do_not_apply.
    apply contains_app_l, join_contains. by apply elem_of_elements. }
  split; [| split].
  - intros n. rewrite Hused. split.
    + intros [Hn | Hn]; [by apply not_elem_of_empty in Hn | done].
    + by right.
  - case_bool_decide as Hdiff; [by right | by left].
  - intros r Hr.
    assert (Hreq : replacement_name r ∈ requested).
    { unfold requested, requested_names.
      apply elem_of_list_to_set, list_elem_of_fmap. by exists r. }
    destruct (decide (replacement_name r ∈ used)) as [Hin | Hout].
    + left. split; [done |].
      apply Hrec in Hin as [Hin | (line & d & rr & Hl & Hd & Hdir & Hrr & Hn)];
        [by apply not_elem_of_empty in Hin |].
      destruct Hdir as (old_name & old_version & Hdir & _ & Hrepl).
      assert (old_name = replacement_name r) as -> by (by simplify_eq).
      by exists line, d, old_version.
    + right. split; [done |].
      assert (Hdiff : replacement_name r ∈ requested ∖ used)
        by (by apply elem_of_difference).
      rewrite bool_decide_eq_false_2.
      * eexists. split; [done |]. by apply Hmsg.
      * intros Hempty. rewrite Hempty in Hdiff.
        by apply not_elem_of_empty in Hdiff.
Qed.

(** Scenario 6 of the specification: [pizza] is requested and the listing
    has no [pizza ... => ...] line. *)
Example replacement_not_applied :
  resolve_module_deps
    [ {| replacement_name := "pizza"; replacement_new_name := None;
         replacement_version := "v1.0.0" |} ]
    [ "github.com/pkg/errors v0.8.0 => github.com/pkg/errors v0.8.1";
      "k8s.io/metrics v0.0.0 => ./staging/src/k8s.io/metrics";
      "rsc.io/quote v1.5.2" ]
  = Raise (PackageRejected
             "The following gomod dependency replacements don't apply: pizza").
Proof. vm_compute. reflexivity. Qed.

Example replacement_applied :
  resolve_module_deps
    [ {| replacement_name := "github.com/pkg/errors";
         replacement_new_name := None; replacement_version := "v0.8.1" |} ]
    [ "github.com/pkg/errors v0.8.0 => github.com/pkg/errors v0.8.1";
      "k8s.io/metrics v0.0.0 => ./staging/src/k8s.io/metrics";
      "rsc.io/quote v1.5.2" ]
  = Ok [ {| mod_name := "github.com/pkg/errors";
            mod_replaces :=
              Some {| replaces_type := "gomod";
                      replaces_name := "github.com/pkg/errors";
                      replaces_version := "v0.8.0" |};
            mod_type := "gomod"; mod_version := "v0.8.1" |};
         {| mod_name := "k8s.io/metrics"; mod_replaces := None;
            mod_type := "gomod";
            mod_version := "./staging/src/k8s.io/metrics" |};
         {| mod_name := "rsc.io/quote"; mod_replaces := None;
            mod_type := "gomod"; mod_version := "v1.5.2" |} ].
Proof. vm_compute. reflexivity. Qed.

Lemma replacements_honored_or_rejected_witness :
  ("pizza"
     ∈ honored
         [ {| replacement_name := "pizza"; replacement_new_name := None;
              replacement_version := "v1.0.0" |} ]
         ["rsc.io/quote v1.5.2"]
   /\ exists line d old_version,
        line ∈ ["rsc.io/quote v1.5.2"]
        /\ d ∈ (module_lines_loop
                  (requested_names
                     [ {| replacement_name := "pizza";
                          replacement_new_name := None;
                          replacement_version := "v1.0.0" |} ])
                  ["rsc.io/quote v1.5.2"] ∅ []).2
        /\ replace_directive line "pizza" old_version (mod_name d)
             (mod_version d)
        /\ mod_replaces d
           = Some {| replaces_type := "gomod"; replaces_name := "pizza";
                     replaces_version := old_version |})
  \/ (("pizza"
         ∉ honored
             [ {| replacement_name := "pizza"; replacement_new_name := None;
                  replacement_version := "v1.0.0" |} ]
             ["rsc.io/quote v1.5.2"])
      /\ exists msg,
           resolve_module_deps
             [ {| replacement_name := "pizza"; replacement_new_name := None;
                  replacement_version := "v1.0.0" |} ]
             ["rsc.io/quote v1.5.2"]
           = Raise (PackageRejected msg)
           /\ Py.contains msg "pizza").
Proof.
  apply (proj2 (proj2 (replacements_honored_or_rejected
           [ {| replacement_name := "pizza"; replacement_new_name := None;
                replacement_version := "v1.0.0" |} ]
           ["rsc.io/quote v1.5.2"]))
           {| replacement_name := "pizza"; replacement_new_name := None;
              replacement_version := "v1.0.0" |}).
  constructor.
Defined.

(** ** Vetting of local paths *)

Section VetLocalDepsFacts.
Variable PureWindowsPath_root : string -> string.

Lemma truthy_false (s : string) : Py.truthy s = false <-> s = "".
Proof. by destruct s. Qed.

Lemma vet_version_ok (version : option string) :
  vet_version PureWindowsPath_root version = Ok tt
  <-> vetted PureWindowsPath_root version.
Proof.
  destruct version as [v |]; simpl; [| done].
  destruct (Py.truthy v) eqn:Hv; simpl.
  - assert (v <> "") as Hne by (intros ->; done).
    unfold has_parent_part.
    destruct (Py.startswith v ".") eqn:Hdot; simpl.
    + case_bool_decide as Hparts.
      * split; [done |]. intros [? | (_ & _ & Hno)]; [done |]. by destruct Hno.
      * destruct (Py.startswith v "/") eqn:Hslash; simpl.
        { split; [done |]. by intros [? | (? & _)]. }
        destruct (Py.truthy (PureWindowsPath_root v)) eqn:Hroot.
        { split; [done |]. intros [? | (_ & Hr & _)]; [done |].
          by rewrite Hr in Hroot. }
        apply truthy_false in Hroot. split; [| done]. intros _. by right.
    + destruct (Py.startswith v "/") eqn:Hslash; simpl.
      { split; [done |]. by intros [? | (? & _)]. }
      destruct (Py.truthy (PureWindowsPath_root v)) eqn:Hroot.
      { split; [done |]. intros [? | (_ & Hr & _)]; [done |].
        by rewrite Hr in Hroot. }
      apply truthy_false in Hroot. split; [| done]. intros _. by right.
  - apply truthy_false in Hv as ->. split; [by left | done].
Qed.

Lemma vet_version_total (version : option string) :
  vet_version PureWindowsPath_root version = Ok tt
  \/ exists msg,
       vet_version PureWindowsPath_root version
       = Raise (UnsupportedFeature msg).
Proof.
  destruct version as [v |]; simpl; [| by left].
  destruct (Py.truthy v); simpl; [| by left].
  destruct (Py.startswith v "." && has_parent_part v);
    [right; unfold contains_parent_dir; eauto |].
  destruct (Py.startswith v "/" || Py.truthy (PureWindowsPath_root v));
    [right; unfold absolute_path; eauto | by left].
Qed.

Lemma vet_local_deps_cases {A : Type} (version_of : A -> option string)
    (dependencies : list A) :
  (_vet_local_deps PureWindowsPath_root version_of dependencies = Ok tt
   /\ Forall (fun d => vetted PureWindowsPath_root (version_of d))
        dependencies)
  \/ ((exists msg,
         _vet_local_deps PureWindowsPath_root version_of dependencies
         = Raise (UnsupportedFeature msg))
      /\ Exists (fun d => ~ vetted PureWindowsPath_root (version_of d))
           dependencies).
Proof.
  induction dependencies as [| dep rest IH]; simpl; [by left |].
  destruct (vet_version_total (version_of dep)) as [Hok | [msg Hraise]].
  - rewrite Hok. simpl. apply vet_version_ok in Hok.
    destruct IH as [[Hrest Hall] | [Hrest Hex]].
    + left. split; [done | by constructor].
    + right. split; [done | by apply Exists_cons_tl].
  - rewrite Hraise. simpl. right. split; [by exists msg |].
    apply Exists_cons_hd. rewrite <- vet_version_ok. by rewrite Hraise.
Qed.

End VetLocalDepsFacts.





(** ** Reading and writing the lines of a file *)

Section FileLines.
Import PyFile.

Lemma line_body_app (s t : string) :
  line_body (s +:+ t) = line_body s && line_body t.
Proof.
  induction s as [| c s IH]; [done |].
  rewrite str_app_cons. simpl. rewrite IH. by rewrite andb_assoc.
Qed.

Lemma rstrip_cons (c : ascii) (s : string) :
  rstrip (String c s)
  = match rstrip s with
    | EmptyString => if is_space c then EmptyString else String c EmptyString
    | stripped => String c stripped
    end.
Proof. reflexivity. Qed.

Lemma rstrip_app_space (s : string) (c : ascii) :
  is_space c = true -> rstrip (s +:+ String c EmptyString) = rstrip s.
Proof.
  intros Hc. induction s as [| a s IH].
  - rewrite str_app_nil_l, rstrip_cons. simpl. by rewrite Hc.
  - by rewrite str_app_cons, !rstrip_cons, IH.
Qed.

Lemma rstrip_idemp (s : string) : rstrip (rstrip s) = rstrip s.
Proof.
  induction s as [| a s IH]; [done |].
  rewrite rstrip_cons. destruct (rstrip s) as [| b t] eqn:Hs.
  - destruct (is_space a) eqn:Ha; [done |].
    rewrite rstrip_cons. simpl. by rewrite Ha.
  - rewrite rstrip_cons. by rewrite IH.
Qed.

Lemma rstrip_prefix (s : string) : exists t, s = rstrip s +:+ t.
Proof.
  induction s as [| a s [t Ht]]; [by exists "" |].
  rewrite rstrip_cons. destruct (rstrip s) as [| b r] eqn:Hs.
  - destruct (is_space a).
    + by exists (String a s).
    + exists s. by rewrite str_app_cons, str_app_nil_l.
  - exists t. by rewrite str_app_cons, <- Ht.
Qed.

Lemma line_body_rstrip (s : string) :
  line_body s = true -> line_body (rstrip s) = true.
Proof.
  destruct (rstrip_prefix s) as [t Ht]. intros Hs.
  rewrite Ht, line_body_app in Hs. by apply andb_true_iff in Hs as [? _].
Qed.

Lemma is_space_LF : is_space LF = true.
Proof. reflexivity. Qed.

Lemma readlines_shapes_up_to (n : nat) :
  forall content,
    String.length content <= n -> Forall line_shape (readlines content).
Proof.
  induction n as [| n IH]; intros [| c rest] Hlen; simpl in *;
    try (by constructor); [lia |].
  assert (Hnl : line_shape (String LF EmptyString)).
  { exists "". split; [done | by right]. }
  destruct (Ascii.eqb c LF) eqn:HLF.
  { constructor; [done |]. apply IH. lia. }
  destruct (Ascii.eqb c CR) eqn:HCR.
  { destruct rest as [| c' rest']; [by repeat constructor |].
    simpl in Hlen. destruct (Ascii.eqb c' LF).
    - constructor; [done |]. apply IH. lia.
    - constructor; [done |]. apply IH. simpl. lia. }
  assert (Hrest : Forall line_shape (readlines rest)) by (apply IH; lia).
  destruct (readlines rest) as [| line lines].
  - repeat constructor. exists (String c ""). simpl.
    rewrite HLF, HCR. split; [done | by left].
  - apply Forall_cons in Hrest as [(body & Hbody & Hline) Hlines].
    constructor; [| done].
    exists (String c body). simpl. rewrite HLF, HCR, Hbody.
    split; [done |]. destruct Hline as [-> | ->]; [by left | by right].
Qed.

Lemma stripped_lines_clean (content : string) :
  Forall clean_line (stripped_lines content).
Proof.
  unfold stripped_lines. apply Forall_fmap.
  eapply Forall_impl; [by eapply readlines_shapes_up_to |].
  intros line (body & Hbody & Hline). simpl.
  assert (rstrip line = rstrip body) as ->.
  { destruct Hline as [-> | ->]; [done |].
    apply rstrip_app_space, is_space_LF. }
  split; [by apply line_body_rstrip | apply rstrip_idemp].
Qed.

Lemma readlines_line (body rest : string) :
  line_body body = true ->
  readlines (body +:+ String LF rest)
  = (body +:+ String LF EmptyString) :: readlines rest.
Proof.
  induction body as [| c body IH]; intros Hbody.
  - rewrite !str_app_nil_l. reflexivity.
  - simpl in Hbody.
    apply andb_true_iff in Hbody as [[HLF HCR]%andb_true_iff Hbody].
    apply negb_true_iff in HLF, HCR.
    rewrite !str_app_cons. simpl. rewrite HLF, HCR. by rewrite IH.
Qed.

(** Reading back what was written gives the lines that were written. *)
Lemma stripped_lines_write_lines (lines : list string) :
  Forall clean_line lines -> stripped_lines (write_lines lines) = lines.
Proof.
  unfold stripped_lines.
  induction lines as [| line rest IH]; [done |].
  intros [[Hbody Hstrip] Hrest]%Forall_cons.
  change (write_lines (line :: rest))
    with (line +:+ String LF (write_lines rest)).
  rewrite readlines_line by done. rewrite fmap_cons, IH by done.
  by rewrite rstrip_app_space, Hstrip by apply is_space_LF.
Qed.

End FileLines.

(** ** The line merge *)

Lemma StronglySorted_filter {A : Type} (R : relation A) (P : A -> Prop)
    `{forall x, Decision (P x)} (l : list A) :
  StronglySorted R l -> StronglySorted R (filter P l).
Proof.
  induction 1 as [| x l Hsorted IH Hall]; [constructor |].
  rewrite filter_cons. case_decide; [| done].
  constructor; [done |].
  rewrite Forall_forall in *. intros y [_ Hy]%list_elem_of_filter. auto.
Qed.

Lemma elem_of_sorted_unique_lines (lines : list string) (x : string) :
  x ∈ sorted_unique_lines lines <-> x <> "" /\ x ∈ lines.
Proof.
  unfold sorted_unique_lines.
  by rewrite list_elem_of_filter, merge_sort_Permutation, elem_of_remove_dups.
Qed.

Lemma sorted_unique_lines_sorted (lines : list string) :
  StronglySorted String.le (sorted_unique_lines lines).
Proof. apply StronglySorted_filter, StronglySorted_merge_sort; apply _. Qed.

Lemma sorted_unique_lines_NoDup (lines : list string) :
  NoDup (sorted_unique_lines lines).
Proof.
  apply NoDup_filter. rewrite merge_sort_Permutation. apply NoDup_remove_dups.
Qed.

(** The result is determined by the non-empty lines that occur. *)
Lemma sorted_unique_lines_ext (l1 l2 : list string) :
  (forall x, x <> "" -> x ∈ l1 <-> x ∈ l2) ->
  sorted_unique_lines l1 = sorted_unique_lines l2.
Proof.
  intros Hsame.
  apply (StronglySorted_unique String.le);
    [apply sorted_unique_lines_sorted .. |].
  apply NoDup_Permutation; [apply sorted_unique_lines_NoDup .. |].
  intros x. rewrite !elem_of_sorted_unique_lines.
  split; intros [Hne Hx]; (split; [done | by apply Hsame]).
Qed.

Lemma sorted_unique_lines_clean (lines : list string) :
  Forall clean_line lines -> Forall clean_line (sorted_unique_lines lines).
Proof.
  rewrite !Forall_forall. intros Hclean x [_ Hx]%elem_of_sorted_unique_lines.
  by apply Hclean.
Qed.

(** The lines of the merged file are the sorted unique union of the lines
    of the two files, without the empty line. *)
Lemma merge_files_lines (src_content dst_content : string) :
  stripped_lines (_merge_files src_content dst_content)
  = sorted_unique_lines
      (stripped_lines src_content ++ stripped_lines dst_content).
Proof.
  unfold _merge_files. apply stripped_lines_write_lines.
  apply sorted_unique_lines_clean, Forall_app.
  split; apply stripped_lines_clean.
Qed.

Lemma merge_files_comm (a b : string) : _merge_files a b = _merge_files b a.
Proof.
  unfold _merge_files. f_equal. apply sorted_unique_lines_ext.
  intros x _. rewrite !elem_of_app. tauto.
Qed.


(** ** Merging bundle directories *)






Example merge_files_test :
  _merge_files
    (PyFile.write_lines ["package1: v1.0.0"; "package2 -- 1.2.3-gah!"])
    (PyFile.write_lines ["package1: v1.0.0"; "package3: v0.1.0-incompatible"])
  = PyFile.write_lines
      ["package1: v1.0.0"; "package2 -- 1.2.3-gah!";
       "package3: v0.1.0-incompatible"]
  /\ _merge_files (PyFile.write_lines ["package1: v1.0.0"; ""])
       "package1: v1.0.0 "
     = PyFile.write_lines ["package1: v1.0.0"].
Proof. split; vm_compute; reflexivity. Qed.



Example merge_order_with_locks :
  _merge_bundle_dirs other_cache_with_lock
    (_merge_bundle_dirs cache_with_lock ∅)
  = {[ ["rsc.io"; "quote"; "@v"; "list"]
         := PyFile.write_lines ["v1.5.1"; "v1.5.2"];
       ["rsc.io"; "quote"; "@v"; "list.lock"] := "";
       ["rsc.io"; "quote"; "@v"; "v1.5.1.mod"] := "module rsc.io/quote" ]}.
Proof. vm_compute. reflexivity. Qed.

(** ** The commit time *)

(** The date computed for a day is a date of the calendar, and it is the
    date of that day. *)
Lemma civil_from_days_inverse (days : Z) :
  let '(y, m, d) := civil_from_days days in
  days_from_civil y m d = days
  /\ (1 <= m <= 12)%Z /\ (1 <= d <= 31)%Z.
Proof.
  unfold civil_from_days, days_from_civil. cbv zeta.
  repeat match goal with
         | |- context [if ?b then _ else _] => destruct b eqn:?
         end;
    repeat match goal with
           | H : (_ <? _)%Z = _ |- _ =>
               first [apply Z.ltb_lt in H | apply Z.ltb_ge in H]
           | H : (_ <=? _)%Z = _ |- _ =>
               first [apply Z.leb_le in H | apply Z.leb_gt in H]
           end;
    Z.to_euclidean_division_equations; lia.
Qed.

Lemma str_length_app (s t : string) :
  String.length (s +:+ t) = String.length s + String.length t.
Proof.
  induction s as [| c s IH]; [done |]. rewrite str_app_cons. simpl.
  by rewrite IH.
Qed.







(** ** The declared major version *)








(** ** The Git version oracle *)

Section GitVersionOracleFacts.
Variable parse : string -> option Semver.VersionInfo.
Variable semver_gt : Semver.VersionInfo -> Semver.VersionInfo -> bool.

Lemma highest_loop_sound (major_version : N) (subpath : option string)
    (tags : list string) :
  forall highest tag_name version,
    highest_loop parse semver_gt major_version subpath tags highest
      = Some (tag_name, version) ->
    highest = Some (tag_name, version)
    \/ (tag_name ∈ tags
        /\ tag_of_major parse subpath major_version tag_name version).
Proof.
  induction tags as [| t tags IH]; intros highest tag_name version; simpl.
  - by left.
  - assert (Hskip :
      highest_loop parse semver_gt major_version subpath tags highest
        = Some (tag_name, version) ->
      highest = Some (tag_name, version)
      \/ (tag_name ∈ t :: tags
          /\ tag_of_major parse subpath major_version tag_name version)).
    { intros [? | [? ?]]%IH; [by left | right]. split; [by right | done]. }
    assert (Htake : forall v,
      _get_semantic_version_from_tag parse t subpath = Ok v ->
      (Semver.major v =? major_version)%N = true ->
      highest_loop parse semver_gt major_version subpath tags (Some (t, v))
        = Some (tag_name, version) ->
      highest = Some (tag_name, version)
      \/ (tag_name ∈ t :: tags
          /\ tag_of_major parse subpath major_version tag_name version)).
    { intros v Hv Hmajor [[= <- <-] | [? ?]]%IH; right.
      - split; [by left |]. split; [done | by apply N.eqb_eq].
      - split; [by right | done]. }
    destruct (_get_semantic_version_from_tag parse t subpath) as [v |] eqn:Hv;
      [| done].
    destruct (Semver.major v =? major_version)%N eqn:Hmajor; simpl; [| done].
    destruct highest as [[best_tag best] |]; [| by apply Htake].
    destruct (semver_gt v best); [by apply Htake | done].
Qed.

Lemma highest_loop_keeps (major_version : N) (subpath : option string)
    (tags : list string) :
  forall highest,
    is_Some highest ->
    is_Some (highest_loop parse semver_gt major_version subpath tags highest).
Proof.
  induction tags as [| t tags IH]; intros highest Hsome; simpl; [done |].
  destruct (_get_semantic_version_from_tag parse t subpath) as [v |];
    [| by apply IH].
  destruct (negb _); [by apply IH |].
  destruct highest as [[best_tag best] |]; [| by apply IH].
  destruct (semver_gt v best); by apply IH.
Qed.

Lemma highest_loop_finds (major_version : N) (subpath : option string)
    (tags : list string) (tag_name : string) (version : Semver.VersionInfo) :
  tag_name ∈ tags ->
  tag_of_major parse subpath major_version tag_name version ->
  forall highest,
    is_Some (highest_loop parse semver_gt major_version subpath tags highest).
Proof.
  intros Hin [Hparse Hmajor].
  induction tags as [| t tags IH]; intros highest;
    [by apply elem_of_nil in Hin |].
  apply elem_of_cons in Hin as [<- | Hin]; simpl.
  - rewrite Hparse. apply N.eqb_eq in Hmajor. rewrite Hmajor. simpl.
    destruct highest as [[best_tag best] |];
      [destruct (semver_gt version best) |];
      by apply highest_loop_keeps.
  - destruct (_get_semantic_version_from_tag parse t subpath) as [v |];
      [| by apply IH].
    destruct (negb _); [by apply IH |].
    destruct highest as [[best_tag best] |]; [| by apply IH].
    destruct (semver_gt v best); by apply IH.
Qed.

(** The tag that [_get_highest_semver_tag] returns is one of the tags that
    Git listed, starts with the prefix of the module, and parses to the
    major version that was asked for. *)
Lemma get_highest_semver_tag_sound (r : repo) (major_version : N)
    (all_reachable : bool) (subpath : option string) (tag_name : string) :
  _get_highest_semver_tag parse semver_gt r major_version all_reachable
    subpath = Some tag_name ->
  tag_name ∈ (if all_reachable then tags_merged r else tags_points_at r)
  /\ Py.startswith tag_name (tag_prefix subpath) = true
  /\ exists version, tag_of_major parse subpath major_version tag_name version.
Proof.
  unfold _get_highest_semver_tag.
  destruct (highest_loop _ _ _ _ _ _) as [[t v] |] eqn:Hloop; [| done].
  simpl. intros [= ->].
  apply highest_loop_sound in Hloop as [? | [Hin Htag]]; [done |].
  apply list_elem_of_filter in Hin as [Hprefix Hin]. eauto.
Qed.

Lemma get_highest_semver_tag_finds (r : repo) (major_version : N)
    (all_reachable : bool) (subpath : option string) (tag_name : string)
    (version : Semver.VersionInfo) :
  tag_name ∈ (if all_reachable then tags_merged r else tags_points_at r) ->
  Py.startswith tag_name (tag_prefix subpath) = true ->
  tag_of_major parse subpath major_version tag_name version ->
  is_Some (_get_highest_semver_tag parse semver_gt r major_version
             all_reachable subpath).
Proof.
  intros Hin Hprefix Htag. unfold _get_highest_semver_tag.
  apply fmap_is_Some. eapply highest_loop_finds; [| done].
  apply list_elem_of_filter. by split.
Qed.


End GitVersionOracleFacts.


Example pseudo_version_after_release :
  _get_golang_version parse_model gt_model
    "github.com/mprahl/test-golang-pseudo-versions" repo_after_v1
    commit_after_v1 None
  = Ok "v1.0.1-0.20191107202936-e92462c73bba".
Proof. vm_compute. reflexivity. Qed.

Example pseudo_version_after_prerelease :
  _get_golang_version parse_model gt_model
    "github.com/mprahl/test-golang-pseudo-versions/v2" repo_after_alpha
    commit_after_alpha None
  = Ok "v2.2.0-alpha.0.20191107204050-863073fae6ef".
Proof. vm_compute. reflexivity. Qed.

Example pseudo_version_without_tag :
  _get_golang_version parse_model gt_model
    "github.com/mprahl/test-golang-pseudo-versions/v2" repo_after_v1
    commit_after_v1 None
  = Ok "v2.0.0-20191107202936-e92462c73bba".
Proof. vm_compute. reflexivity. Qed.



Example match_major_version_samples :
  match_major_version "example.com/m/v2" = Some 2%N
  /\ match_major_version "example.com/m/v10" = Some 10%N
  /\ match_major_version "example.com/m/v02" = Some 2%N
  /\ match_major_version "example.com/m/v0" = Some 0%N
  /\ match_major_version ("example.com/m/v3" +:+ String PyFile.LF "")
     = Some 3%N
  /\ match_major_version "example.com/m" = None
  /\ match_major_version "example.com/m/v" = None
  /\ match_major_version "example.com/m/v2x" = None
  /\ match_major_version "example.com/mv2" = None
  /\ match_major_version "/v2" = None.
Proof. repeat split; reflexivity. Qed.



Example v1_tag_preferred :
  _get_golang_version parse_model gt_model "github.com/example/module"
    repo_v0_and_v1 commit_after_v1 None
  = Ok "v1.0.0".
Proof. vm_compute. reflexivity. Qed.


(** ** Local paths of packages *)

Example contains_package_test :
  _contains_package "github.com/foo" "github.com/foo" = true
  /\ _contains_package "github.com/foo" "github.com/foo/bar" = true
  /\ _contains_package "github.com/foo" "github.com/bar" = false
  /\ _contains_package "github.com/foo" "github.com/foobar" = false
  /\ _contains_package "github.com/foo/bar" "github.com/foo" = false.
Proof. repeat split; reflexivity. Qed.

Example path_to_subpackage_test :
  _path_to_subpackage "github.com/foo" "github.com/foo" = Ok ""
  /\ _path_to_subpackage "github.com/foo" "github.com/foo/bar" = Ok "bar"
  /\ _path_to_subpackage "github.com/foo" "github.com/foo/bar/baz"
     = Ok "bar/baz"
  /\ _path_to_subpackage "github.com/foo/bar" "github.com/foo/bar/baz"
     = Ok "baz"
  /\ _path_to_subpackage "github.com/foo" "github.com/foo/github.com/foo"
     = Ok "github.com/foo"
  /\ _path_to_subpackage "github.com/a" "github.com/b"
     = Raise (ValueError "Package github.com/b does not belong to github.com/a").
Proof. repeat split; reflexivity. Qed.

Example match_parent_module_test :
  _match_parent_module "example.com/foo/bar" ["example.com/foo/bar"]
  = Some "example.com/foo/bar"
  /\ _match_parent_module "example.com/foo/bar" ["example.com/foo"]
     = Some "example.com/foo"
  /\ _match_parent_module "example.com/foo/bar"
       ["example.com/foo"; "example.com/foo/bar"]
     = Some "example.com/foo/bar"
  /\ _match_parent_module "example.com/foo/bar" [] = None
  /\ _match_parent_module "example.com/foo/bar" ["example.com/spam/eggs"]
     = None.
Proof. repeat split; reflexivity. Qed.

Lemma get_at_length (p r : string) :
  String.get (String.length p) (p +:+ r) = String.get 0 r.
Proof. induction p as [| a p IH]; [done |]. by rewrite str_app_cons. Qed.

Lemma drop_app_length (p r : string) : Py.drop (String.length p) (p +:+ r) = r.
Proof. induction p as [| a p IH]; [by destruct r |]. by rewrite str_app_cons. Qed.

Lemma contains_package_iff (parent_name package_name : string) :
  _contains_package parent_name package_name = true
  <-> package_name = parent_name
      \/ exists rest, package_name = parent_name +:+ "/" +:+ rest.
Proof.
  unfold _contains_package.
  destruct (Py.startswith package_name parent_name) eqn:Hstart; simpl.
  - apply startswith_spec in Hstart as [r ->].
    rewrite str_length_app, get_at_length.
    destruct r as [| c r]; simpl.
    + rewrite str_app_nil_r.
      replace (String.length parent_name <? String.length parent_name + 0)%nat
        with false by (symmetry; apply Nat.ltb_ge; lia).
      split; [by left | done].
    + replace (String.length parent_name
               <? String.length parent_name + S (String.length r))%nat
        with true by (symmetry; apply Nat.ltb_lt; lia).
      rewrite Ascii.eqb_eq. split.
      * intros ->. right. by exists r.
      * intros [Heq | [rest Heq]].
        -- apply (f_equal String.length) in Heq.
           rewrite str_length_app in Heq. simpl in Heq. lia.
        -- revert Heq. clear. induction parent_name as [| a p IH]; simpl.
           ++ by intros [= -> _].
           ++ rewrite !str_app_cons. intros [= Heq]. by apply IH.
  - split; [done |]. intros [-> | [rest ->]].
    + assert (Py.startswith parent_name parent_name = true) as H
        by (apply startswith_spec; exists ""; by rewrite str_app_nil_r).
      congruence.
    + assert (Py.startswith (parent_name +:+ "/" +:+ rest) parent_name = true)
        as H by (apply startswith_spec; eauto).
      congruence.
Qed.

Lemma lstrip_slash_no_slash (s : string) :
  Py.startswith (PyPath.lstrip_slash s) "/" = false.
Proof.
  induction s as [| c s IH]; [done |]. simpl.
  destruct (Ascii.eqb c "/") eqn:Hc; [done |].
  by rewrite startswith_cons, Hc.
Qed.

Lemma lstrip_slash_fixed (s : string) :
  Py.startswith s "/" = false -> PyPath.lstrip_slash s = s.
Proof.
  destruct s as [| c s]; [done |]. rewrite startswith_cons, startswith_nil.
  rewrite andb_true_r. simpl. by intros ->.
Qed.

Lemma lstrip_slash_split (s : string) :
  exists mid, only_slashes mid = true /\ s = mid +:+ PyPath.lstrip_slash s.
Proof.
  induction s as [| c s [mid [Hmid IH]]]; [by exists "" |]. simpl.
  destruct (Ascii.eqb c "/") eqn:Hc; [| by exists ""].
  exists (String c mid). split; [simpl; by rewrite Hc |].
  by rewrite str_app_cons, <- IH.
Qed.

Lemma app_same_length (p q r t : string) :
  p +:+ r = q +:+ t -> String.length p = String.length q -> p = q.
Proof.
  revert q. induction p as [| a p IH]; intros [| b q]; try done.
  rewrite !str_app_cons. intros [= -> Heq] [= Hlen]. f_equal. eauto.
Qed.

Lemma contains_package_length (parent_name package_name : string) :
  _contains_package parent_name package_name = true ->
  (String.length parent_name <= String.length package_name)%nat.
Proof.
  intros [-> | [rest ->]]%contains_package_iff; [done |].
  rewrite str_length_app. lia.
Qed.

Lemma contains_package_same_length (m m' package_name : string) :
  _contains_package m package_name = true ->
  _contains_package m' package_name = true ->
  String.length m = String.length m' -> m = m'.
Proof.
  unfold _contains_package.
  destruct (Py.startswith package_name m) eqn:Hm; [| done].
  destruct (Py.startswith package_name m') eqn:Hm'; [| done].
  apply startswith_spec in Hm as [r Hr], Hm' as [r' Hr'].
  intros _ _. apply (app_same_length _ _ r r'). congruence.
Qed.

Lemma max_by_length_spec (best : option string) (names : list string) :
  match max_by_length best names with
  | None => best = None /\ names = []
  | Some m =>
      (best = Some m \/ m ∈ names)
      /\ (forall b, best = Some b -> (String.length b <= String.length m)%nat)
      /\ Forall (fun n => (String.length n <= String.length m)%nat) names
  end.
Proof.
  revert best. induction names as [| name rest IH]; intros best; simpl.
  - destruct best as [b |]; [| done].
    split; [by left |]. split; [by intros ? [= ->] | constructor].
  - destruct best as [b |].
    + destruct (String.length b <? String.length name)%nat eqn:Hlt.
      * apply Nat.ltb_lt in Hlt. specialize (IH (Some name)).
        destruct (max_by_length (Some name) rest) as [m |]; [| by destruct IH].
        destruct IH as (Hin & Hbest & Hall).
        specialize (Hbest name eq_refl). split; [| split].
        -- right. destruct Hin as [[= ->] | Hin]; [left | by right].
        -- intros ? [= <-]. lia.
        -- by constructor.
      * apply Nat.ltb_ge in Hlt. specialize (IH (Some b)).
        destruct (max_by_length (Some b) rest) as [m |]; [| by destruct IH].
        destruct IH as (Hin & Hbest & Hall).
        specialize (Hbest b eq_refl). split; [| split].
        -- destruct Hin as [Hin | Hin]; [by left | right; by right].
        -- intros ? [= <-]. lia.
        -- constructor; [lia | done].
    + specialize (IH (Some name)).
      destruct (max_by_length (Some name) rest) as [m |]; [| by destruct IH].
      destruct IH as (Hin & Hbest & Hall).
      specialize (Hbest name eq_refl). split; [| split].
      * right. destruct Hin as [[= ->] | Hin]; [left | by right].
      * done.
      * by constructor.
Qed.

Lemma match_parent_module_some (package_name parent : string)
    (module_names : list string) :
  _match_parent_module package_name module_names = Some parent ->
  parent ∈ module_names /\ _contains_package parent package_name = true.
Proof.
  unfold _match_parent_module. intros Hmax.
  pose proof (max_by_length_spec None
    (filter (fun m => _contains_package m package_name = true) module_names))
    as H.
  rewrite Hmax in H.
  by destruct H as ([? | [Hc Hin]%list_elem_of_filter] & _ & _).
Qed.

Lemma match_parent_module_none (package_name : string)
    (module_names : list string) :
  _match_parent_module package_name module_names = None ->
  forall m, m ∈ module_names -> _contains_package m package_name = false.
Proof.
  unfold _match_parent_module. intros Hmax m Hm.
  pose proof (max_by_length_spec None
    (filter (fun m => _contains_package m package_name = true) module_names))
    as H.
  rewrite Hmax in H. destruct H as [_ Hnil].
  destruct (_contains_package m package_name) eqn:Hc; [| done].
  assert (m ∈ filter (fun m => _contains_package m package_name = true)
                module_names) as Hin by (apply list_elem_of_filter; by split).
  rewrite Hnil in Hin. by apply elem_of_nil in Hin.
Qed.

Lemma path_to_subpackage_suffix (parent_name rest : string) :
  _path_to_subpackage parent_name (parent_name +:+ "/" +:+ rest)
  = Ok (PyPath.lstrip_slash rest).
Proof.
  unfold _path_to_subpackage.
  assert (_contains_package parent_name (parent_name +:+ "/" +:+ rest) = true)
    as -> by (apply contains_package_iff; right; by exists rest).
  simpl. by rewrite drop_app_length.
Qed.

Lemma path_to_subpackage_self (parent_name : string) :
  _path_to_subpackage parent_name parent_name = Ok "".
Proof.
  unfold _path_to_subpackage.
  assert (_contains_package parent_name parent_name = true)
    as -> by (apply contains_package_iff; by left).
  simpl. rewrite <- (str_app_nil_r parent_name) at 2.
  by rewrite drop_app_length.
Qed.

(** X1. A module contains a package exactly when the package name is the
    module name, or the module name followed by a slash and anything: a
    common prefix of characters is not enough. *)
Theorem contains_package_spec (parent_name package_name : string) :
  _contains_package parent_name package_name = true
  <-> package_name = parent_name
      \/ exists rest, package_name = parent_name +:+ "/" +:+ rest.
Proof. apply contains_package_iff. Qed.

(** X2. [_path_to_subpackage] raises [ValueError] exactly when the parent
    does not contain the package. Otherwise it returns a path that does not
    start with a slash: the empty one for the parent itself, and else what
    follows the parent name and the slashes after it. *)
Theorem path_to_subpackage_cases (parent_name subpackage_name : string) :
  (_contains_package parent_name subpackage_name = false
   /\ _path_to_subpackage parent_name subpackage_name
      = Raise (does_not_belong subpackage_name parent_name))
  \/ (_contains_package parent_name subpackage_name = true
      /\ exists rel,
           _path_to_subpackage parent_name subpackage_name = Ok rel
           /\ Py.startswith rel "/" = false
           /\ ((subpackage_name = parent_name /\ rel = "")
               \/ exists mid,
                    only_slashes mid = true
                    /\ subpackage_name = parent_name +:+ "/" +:+ mid +:+ rel)).
Proof.
  destruct (_contains_package parent_name subpackage_name) eqn:Hc.
  - right. split; [done |].
    apply contains_package_iff in Hc as [-> | [rest ->]].
    + exists "". rewrite path_to_subpackage_self. split; [done |].
      split; [done |]. by left.
    + exists (PyPath.lstrip_slash rest). rewrite path_to_subpackage_suffix.
      split; [done |]. split; [apply lstrip_slash_no_slash |]. right.
      destruct (lstrip_slash_split rest) as [mid [Hmid Hrest]].
      exists mid. split; [done |]. by rewrite <- Hrest.
  - left. split; [done |]. unfold _path_to_subpackage. by rewrite Hc.
Qed.

(** X3. Round trip: for a relative path [rel], the path from a module to
    the package named by the module name, a slash and [rel] is [rel]. *)
Theorem path_to_subpackage_round_trip (parent_name rel : string) :
  Py.startswith rel "/" = false ->
  _path_to_subpackage parent_name (parent_name +:+ "/" +:+ rel) = Ok rel.
Proof.
  intros Hrel. by rewrite path_to_subpackage_suffix, lstrip_slash_fixed.
Qed.

Lemma path_to_subpackage_round_trip_witness :
  Py.startswith "bar/baz" "/" = false
  /\ _path_to_subpackage "github.com/foo" ("github.com/foo" +:+ "/" +:+ "bar/baz")
     = Ok "bar/baz".
Proof.
  split; [reflexivity |].
  apply (path_to_subpackage_round_trip "github.com/foo" "bar/baz").
  reflexivity.
Defined.

(** X4. [_match_parent_module] returns [None] exactly when no module of the
    list contains the package. Otherwise it returns a module of the list
    that contains the package, and every other module of the list that
    contains the package has a strictly shorter name. *)
Theorem match_parent_module_longest (package_name : string)
    (module_names : list string) :
  match _match_parent_module package_name module_names with
  | None =>
      forall m, m ∈ module_names -> _contains_package m package_name = false
  | Some parent =>
      parent ∈ module_names
      /\ _contains_package parent package_name = true
      /\ forall m, m ∈ module_names ->
           _contains_package m package_name = true ->
           (String.length m < String.length parent)%nat \/ m = parent
  end.
Proof.
  unfold _match_parent_module.
  pose proof (max_by_length_spec None
    (filter (fun m => _contains_package m package_name = true) module_names))
    as H.
  destruct (max_by_length None _) as [parent |].
  - destruct H as ([? | [Hc Hin]%list_elem_of_filter] & _ & Hall); [done |].
    split; [done |]. split; [done |]. intros m Hm Hcm.
    rewrite Forall_forall in Hall.
    assert (String.length m <= String.length parent)%nat as Hle
      by (apply Hall, list_elem_of_filter; by split).
    destruct (decide (String.length m = String.length parent)) as [Heq |];
      [right | left; lia].
    by apply (contains_package_same_length _ _ package_name).
  - destruct H as [_ Hnil]. intros m Hm.
    destruct (_contains_package m package_name) eqn:Hc; [| done].
    assert (m ∈ filter (fun m => _contains_package m package_name = true)
                  module_names) as Hin by (apply list_elem_of_filter; by split).
    rewrite Hnil in Hin. by apply elem_of_nil in Hin.
Qed.

Lemma join_relative (a b : string) :
  Py.startswith b "/" = false -> exists rest, PyPath.join a b = a +:+ rest.
Proof.
  intros Hb. unfold PyPath.join. rewrite Hb.
  destruct (negb (Py.truthy a) || PyPath.ends_with_slash a); eauto.
Qed.

Lemma set_full_local_dep_relpath_cases (module_names : list string)
    (dep : package_dep) :
  (exists dep',
     set_full_local_dep_relpath module_names dep = Returns dep'
     /\ completed module_names dep dep'
     /\ (is_local_dep dep = true ->
         exists m, m ∈ module_names
                   /\ _contains_package m (dep_name dep) = true))
  \/ (is_local_dep dep = true
      /\ set_full_local_dep_relpath module_names dep
         = Raises (no_parent_module_for (dep_name dep))
      /\ forall m, m ∈ module_names ->
           _contains_package m (dep_name dep) = false).
Proof.
  unfold set_full_local_dep_relpath, completed, is_local_dep.
  destruct (dep_version dep) as [dep_path |] eqn:Hv;
    [| left; exists dep; by rewrite ?Hv].
  destruct (Py.startswith dep_path ".") eqn:Hdot.
  - assert (Py.truthy dep_path = true) as -> by (by destruct dep_path).
    simpl.
    destruct (_match_parent_module (dep_name dep) module_names)
      as [parent |] eqn:Hparent.
    + left. destruct (match_parent_module_some _ _ _ Hparent) as [Hin Hc].
      destruct (path_to_subpackage_cases parent (dep_name dep))
        as [[Hno _] | (_ & rel & Hrel & Hslash & _)]; [congruence |].
      rewrite Hrel. simpl. destruct (Py.truthy rel) eqn:Htruthy.
      * eexists. split; [done |]. simpl. rewrite ?Hv, ?Hdot.
        split; [| eauto]. split; [done |]. split; [done |].
        exists parent, rel. rewrite Htruthy. split; [done |].
        split; [done |]. split; [done |].
        destruct (join_relative dep_path rel Hslash) as [rest ->]. eauto.
      * exists dep. split; [done |]. rewrite ?Hv, ?Hdot.
        split; [| eauto]. split; [done |]. split; [done |].
        exists parent, rel. rewrite Htruthy. split; [done |].
        split; [done |]. split; [done |]. exists "".
        by rewrite str_app_nil_r.
    + right. split; [done |]. split; [done |].
      by apply match_parent_module_none.
  - left. exists dep. rewrite orb_true_r. rewrite ?Hv, ?Hdot. by eauto.
Qed.

Lemma set_relpaths_loop_cases (module_names : list string)
    (pkg_deps : list package_dep) :
  match set_relpaths_loop module_names pkg_deps with
  | Returns pkg_deps' => Forall2 (completed module_names) pkg_deps pkg_deps'
  | Raises x =>
      exists dep, dep ∈ pkg_deps /\ x = no_parent_module_for (dep_name dep)
  end.
Proof.
  induction pkg_deps as [| dep rest IH]; simpl; [constructor |].
  destruct (set_full_local_dep_relpath_cases module_names dep)
    as [(dep' & -> & Hdep & _) | (_ & -> & _)]; simpl.
  - destruct (set_relpaths_loop module_names rest) as [rest' | x]; simpl.
    + by constructor.
    + destruct IH as (d & Hd & ->). exists d. split; [by right | done].
  - exists dep. split; [by left | done].
Qed.

Example set_full_local_dep_relpaths_test :
  _set_full_local_dep_relpaths
    [package_at "example.org/foo" "./src/foo"]
    [module_at "example.org/foo" "./src/foo"]
  = Returns [package_at "example.org/foo" "./src/foo"]
  /\ _set_full_local_dep_relpaths
       [package_at "example.org/foo/bar" "./src/foo"]
       [module_at "example.org/foo" "./src/foo"]
     = Returns [package_at "example.org/foo/bar" "./src/foo/bar"]
  /\ _set_full_local_dep_relpaths
       [package_at "example.org/foo/bar" "./src/bar"]
       [module_at "example.org/foo" "./src/foo";
        module_at "example.org/foo/bar" "./src/bar"]
     = Returns [package_at "example.org/foo/bar" "./src/bar"]
  /\ _set_full_local_dep_relpaths
       [package_at "example.org/foo/bar/baz" "./src/bar"]
       [module_at "example.org/foo" "./src/foo";
        module_at "example.org/foo/bar" "./src/bar"]
     = Returns [package_at "example.org/foo/bar/baz" "./src/bar/baz"]
  /\ _set_full_local_dep_relpaths
       [package_at "example.org/foo/bar" "./src/foo"]
       [module_at "example.org/foo" "./src/foo";
        module_at "example.org/foo/bar" "v1.0.0"]
     = Returns [package_at "example.org/foo/bar" "./src/foo/bar"]
  /\ _set_full_local_dep_relpaths
       [package_at "example.org/foo/bar" "v1.0.0"]
       [module_at "example.org/foo" "./src/foo"]
     = Returns [package_at "example.org/foo/bar" "v1.0.0"]
  /\ _set_full_local_dep_relpaths
       [package_at "example.org/foo" "./src/foo"] []
     = Raises (RuntimeError
         "Could not find parent Go module for local dependency: example.org/foo").
Proof. repeat split; reflexivity. Qed.

(** X5. [_set_full_local_dep_relpaths] raises nothing but [RuntimeError],
    and it raises exactly when a dependency with a local path belongs to no
    locally replaced module: the error names the first such dependency.
    The [ValueError] of [_path_to_subpackage] never reaches the caller. *)
Theorem set_full_local_dep_relpaths_errors (pkg_deps : list package_dep)
    (main_module_deps : list module_dep) :
  ((exists pkg_deps',
      _set_full_local_dep_relpaths pkg_deps main_module_deps
      = Returns pkg_deps')
   /\ Forall (has_parent_module (locally_replaced_mod_names main_module_deps))
        pkg_deps)
  \/ exists before dep after,
       pkg_deps = before ++ dep :: after
       /\ Forall
            (has_parent_module (locally_replaced_mod_names main_module_deps))
            before
       /\ is_local_dep dep = true
       /\ (forall m, m ∈ locally_replaced_mod_names main_module_deps ->
             _contains_package m (dep_name dep) = false)
       /\ _set_full_local_dep_relpaths pkg_deps main_module_deps
          = Raises (no_parent_module_for (dep_name dep)).
Proof.
  unfold _set_full_local_dep_relpaths, has_parent_module.
  induction pkg_deps as [| dep rest IH]; simpl.
  - left. split; [by exists [] | constructor].
  - destruct (set_full_local_dep_relpath_cases
                (locally_replaced_mod_names main_module_deps) dep)
      as [(dep' & -> & _ & Hparent) | (Hlocal & -> & Hnone)]; simpl.
    + destruct IH as [[[rest' ->] Hall]
                      | (before & d & after & -> & Hall & Hl & Hn & ->)];
        simpl.
      * left. split; [by eexists | by constructor].
      * right. exists (dep :: before), d, after.
        split; [done |]. split; [by constructor | done].
    + right. exists [], dep, rest. split; [done |]. split; [constructor |].
      done.
Qed.

(** X6. When [_set_full_local_dep_relpaths] returns, the list has the same
    dependencies in the same order, with their names and types. A version
    that is no local path is left as it is; a local path is joined with the
    path to the package from the longest locally replaced module containing
    it, which only appends to the local path. *)
Theorem set_full_local_dep_relpaths_completes (pkg_deps : list package_dep)
    (main_module_deps : list module_dep) (pkg_deps' : list package_dep) :
  _set_full_local_dep_relpaths pkg_deps main_module_deps = Returns pkg_deps' ->
  Forall2 (completed (locally_replaced_mod_names main_module_deps))
    pkg_deps pkg_deps'.
Proof.
  unfold _set_full_local_dep_relpaths. intros Hloop.
  pose proof (set_relpaths_loop_cases
                (locally_replaced_mod_names main_module_deps) pkg_deps) as H.
  by rewrite Hloop in H.
Qed.

Lemma set_full_local_dep_relpaths_completes_witness :
  _set_full_local_dep_relpaths
    [package_at "example.org/foo/bar" "./src/foo";
     package_at "example.org/spam" "v1.0.0"]
    [module_at "example.org/foo" "./src/foo"]
  = Returns [package_at "example.org/foo/bar" "./src/foo/bar";
             package_at "example.org/spam" "v1.0.0"]
  /\ Forall2
       (completed
          (locally_replaced_mod_names
             [module_at "example.org/foo" "./src/foo"]))
       [package_at "example.org/foo/bar" "./src/foo";
        package_at "example.org/spam" "v1.0.0"]
       [package_at "example.org/foo/bar" "./src/foo/bar";
        package_at "example.org/spam" "v1.0.0"].
Proof.
  split; [reflexivity |].
  apply (set_full_local_dep_relpaths_completes _
           [module_at "example.org/foo" "./src/foo"]).
  reflexivity.
Defined.

Lemma completed_relative (PureWindowsPath_root : string -> string)
    (module_names : list string) (dep dep' : package_dep) :
  vetted PureWindowsPath_root (dep_version dep) ->
  completed module_names dep dep' ->
  forall version,
    dep_version dep' = Some version -> Py.startswith version "/" = false.
Proof.
  intros Hvet (_ & _ & Hdep) version Hversion.
  destruct (dep_version dep) as [dep_path |]; [| congruence].
  destruct (Py.startswith dep_path ".") eqn:Hdot.
  - destruct Hdep as (parent & rel & _ & _ & _ & rest & Hrest).
    rewrite Hversion in Hrest. injection Hrest as Heq. subst version.
    destruct dep_path as [| c dep_path]; [done |].
    rewrite startswith_cons, startswith_nil, andb_true_r in Hdot.
    apply Ascii.eqb_eq in Hdot as ->. by rewrite str_app_cons.
  - rewrite Hversion in Hdep. injection Hdep as Heq. subst version.
    destruct Hvet as [-> | [Hslash _]]; done.
Qed.

Lemma vet_and_complete_packages_cases
    (PureWindowsPath_root : string -> string)
    (module_level_deps : list module_dep) (packages : list package_entry) :
  match vet_and_complete_packages PureWindowsPath_root module_level_deps
          packages with
  | Returns packages' =>
      Forall2 (fun entry entry' => pkg entry' = pkg entry) packages packages'
      /\ Forall relative_versions packages'
  | Raises (Known (UnsupportedFeature _)) | Raises (RuntimeError _) => True
  | Raises _ => False
  end.
Proof.
  induction packages as [| entry rest IH]; simpl; [by split; constructor |].
  destruct (vet_local_deps_cases PureWindowsPath_root dep_version
              (pkg_deps entry)) as [[-> Hvet] | [[msg ->] _]]; simpl; [| done].
  unfold _set_full_local_dep_relpaths.
  pose proof (set_relpaths_loop_cases
                (locally_replaced_mod_names module_level_deps)
                (pkg_deps entry)) as Hloop.
  destruct (set_relpaths_loop _ (pkg_deps entry)) as [deps | x]; simpl.
  - destruct (vet_and_complete_packages _ _ rest) as [rest' | x]; simpl;
      [| done].
    destruct IH as [Hpkg Hrel]. split; [by constructor |].
    constructor; [| done]. unfold relative_versions. simpl.
    clear -Hvet Hloop. induction Hloop as [| d d' ds ds' Hd _ IH];
      [constructor |].
    inversion Hvet as [| ? ? Hvd Hvds]; subst.
    constructor; [| by apply IH].
    by apply (completed_relative PureWindowsPath_root
                (locally_replaced_mod_names module_level_deps) d).
  - by destruct Hloop as (d & _ & ->).
Qed.

(** X7. The end of a resolve, for whatever [pathlib] gives as Windows root:
    it raises nothing but [UnsupportedFeature] and [RuntimeError]; when it
    returns, the packages are the same top-level packages, and no version
    of a module-level or package-level dependency starts with a slash, so
    completing the local paths never makes one absolute. *)
Theorem resolved_versions_relative (PureWindowsPath_root : string -> string)
    (module_level_deps : list module_dep) (packages : list package_entry) :
  match vet_and_complete PureWindowsPath_root module_level_deps packages with
  | Returns packages' =>
      Forall (fun module => Py.startswith (mod_version module) "/" = false)
        module_level_deps
      /\ Forall2 (fun entry entry' => pkg entry' = pkg entry)
           packages packages'
      /\ Forall relative_versions packages'
  | Raises (Known (UnsupportedFeature _)) | Raises (RuntimeError _) => True
  | Raises _ => False
  end.
Proof.
  unfold vet_and_complete.
  destruct (vet_local_deps_cases PureWindowsPath_root (Some ∘ mod_version)
              module_level_deps) as [[-> Hvet] | [[msg ->] _]]; simpl;
    [| done].
  pose proof (vet_and_complete_packages_cases PureWindowsPath_root
                module_level_deps packages) as H.
  destruct (vet_and_complete_packages _ _ packages) as [packages' | x];
    [| done].
  split; [| done]. eapply Forall_impl; [exact Hvet |].
  intros module [-> | [Hslash _]]; done.
Qed.

(** ** Repeated merges *)

Lemma merge_files_absorb (a d : string) :
  _merge_files a (_merge_files a d) = _merge_files a d.
Proof.
  unfold _merge_files at 1 3. rewrite merge_files_lines. f_equal.
  apply sorted_unique_lines_ext. intros x Hx.
  rewrite !elem_of_app, !elem_of_sorted_unique_lines, !elem_of_app. tauto.
Qed.


(** X9. Merging a file into the result of merging it changes nothing, and a
    merged file merged with itself is itself: what [_merge_files] writes is
    a fixed form of the lines. *)
Theorem merge_files_idempotent (src_content dst_content : string) :
  let merged := _merge_files src_content dst_content in
  _merge_files src_content merged = merged
  /\ _merge_files merged merged = merged
  /\ _merge_files merged src_content = merged.
Proof.
  intros merged. unfold merged.
  split; [apply merge_files_absorb |]. split.
  - unfold _merge_files at 1 4. rewrite merge_files_lines. f_equal.
    apply sorted_unique_lines_ext. intros x Hx.
    rewrite !elem_of_app, !elem_of_sorted_unique_lines, !elem_of_app. tauto.
  - rewrite merge_files_comm. apply merge_files_absorb.
Qed.


(** ** The listing of packages *)

Lemma load_list_deps_loop_cases (pkgs : list package_json) :
  forall package_info : gmap string dep_info,
    (Exists (fun p => pkg_ImportPath p = None) pkgs
     /\ load_list_deps_loop pkgs package_info = Raise (KeyError "ImportPath"))
    \/ (Forall (fun p => is_Some (pkg_ImportPath p)) pkgs
        /\ exists info,
             load_list_deps_loop pkgs package_info = Ok info
             /\ forall name,
                  info !! name
                  = match last (filter (fun p => pkg_ImportPath p = Some name)
                                  pkgs) with
                    | Some p => Some (load_info p)
                    | None => package_info !! name
                    end).
Proof.
  induction pkgs as [| p rest IH]; intros package_info.
  - right. split; [constructor |]. by exists package_info.
  - simpl. destruct (pkg_ImportPath p) as [import_path |] eqn:Hpath.
    + destruct (IH (<[import_path := load_info p]> package_info))
        as [[Hex ->] | [Hall (info & -> & Hinfo)]].
      * left. split; [by apply Exists_cons_tl | done].
      * right. split; [constructor; [by rewrite Hpath | done] |].
        exists info. split; [done |]. intros name. rewrite Hinfo.
        rewrite filter_cons. case_decide as Hname.
        -- rewrite Hpath in Hname. injection Hname as ->.
           rewrite last_cons.
           destruct (last (filter _ rest)); [done |].
           by rewrite lookup_insert_eq.
        -- destruct (last (filter _ rest)); [done |].
           rewrite lookup_insert_ne; [done |]. intros ->. by rewrite Hpath in Hname.
    + left. split; [by apply Exists_cons_hd | done].
Qed.

(** X11. [_load_list_deps] raises [KeyError] for [ImportPath] exactly when
    an object of the stream lacks that key. Otherwise the dictionary has
    one entry for each import path of the stream and no other, and the
    entry is the data of the last object with that import path. *)
Theorem load_list_deps_cases (pkgs : list package_json) :
  (Exists (fun p => pkg_ImportPath p = None) pkgs
   /\ _load_list_deps pkgs = Raise (KeyError "ImportPath"))
  \/ (Forall (fun p => is_Some (pkg_ImportPath p)) pkgs
      /\ exists package_info,
           _load_list_deps pkgs = Ok package_info
           /\ forall name,
                package_info !! name
                = load_info
                    <$> last (filter (fun p => pkg_ImportPath p = Some name)
                                pkgs)).
Proof.
  unfold _load_list_deps.
  destruct (load_list_deps_loop_cases pkgs ∅)
    as [? | [Hall (info & Hrun & Hinfo)]]; [by left |].
  right. split; [done |]. exists info. split; [done |].
  intros name. rewrite Hinfo. by destruct (last _).
Qed.

(** ** Names that the listing lacks *)

Lemma pkg_level_deps_loop_cases (package_info : gmap string dep_info)
    (module_version : string) (deps : list string) :
  forall processed acc,
    (exists r,
       pkg_level_deps_loop package_info module_version deps processed acc
       = Ok r)
    \/ (exists name,
          pkg_level_deps_loop package_info module_version deps processed acc
          = Raise (KeyError name)
          /\ name ∈ deps /\ package_info !! name = None).
Proof.
  induction deps as [| name rest IH]; intros processed acc; simpl;
    [left; eauto |].
  unfold lookup_info.
  destruct (package_info !! name) as [info |] eqn:Hname; simpl.
  - destruct (IH ({[name]} ∪ processed)
                (acc ++ [ {| dep_name := name; dep_type := "go-package";
                             dep_version :=
                               assign_version info module_version |} ]))
      as [Hok | (missing & -> & Hin & Hnone)]; [by left |].
    right. exists missing. split; [done |]. split; [by right | done].
  - right. exists name. split; [done |]. split; [by left | done].
Qed.

Lemma packages_loop_cases (package_info : gmap string dep_info)
    (module_version : string) (package_list : list string) :
  forall processed acc,
    (exists r,
       packages_loop package_info module_version package_list processed acc
       = Ok r)
    \/ (exists name,
          packages_loop package_info module_version package_list processed acc
          = Raise (KeyError name)
          /\ package_info !! name = None
          /\ (name ∈ package_list
              \/ exists p, p ∈ package_list
                   /\ name ∈ listed_deps package_info p)).
Proof.
  induction package_list as [| pkg_name rest IH]; intros processed acc;
    simpl; [left; eauto |].
  assert (Hrest : forall processed' acc',
    (exists r,
       packages_loop package_info module_version rest processed' acc' = Ok r)
    \/ (exists name,
          packages_loop package_info module_version rest processed' acc'
          = Raise (KeyError name)
          /\ package_info !! name = None
          /\ (name ∈ pkg_name :: rest
              \/ exists p, p ∈ pkg_name :: rest
                   /\ name ∈ listed_deps package_info p))).
  { intros processed' acc'.
    destruct (IH processed' acc') as [? | (name & Hrun & Hnone & Hwhere)];
      [by left |].
    right. exists name. split; [done |]. split; [done |].
    destruct Hwhere as [Hin | (p & Hp & Hin)]; [left; by right |].
    right. exists p. split; [by right | done]. }
  case_bool_decide; [apply Hrest |].
  unfold lookup_info.
  destruct (package_info !! pkg_name) as [info |] eqn:Hpkg; simpl.
  - destruct (pkg_level_deps_loop_cases package_info module_version
                (default [] (info_Deps info)) processed [])
      as [[[processed' deps] ->] | (name & -> & Hin & Hnone)]; simpl.
    + apply Hrest.
    + right. exists name. split; [done |]. split; [done |].
      right. exists pkg_name. split; [by left |].
      unfold listed_deps. by rewrite Hpkg.
  - right. exists pkg_name. split; [done |]. split; [done |].
    left. by left.
Qed.

(** X12. The package graph raises nothing but the [KeyError] of a name that
    is not in the listing, and that name is a package of the enumeration or
    a listed dependency of one: when the listing has every enumerated
    package and every name of the [Deps] of its entries, the package graph
    is returned. *)
Theorem resolve_packages_errors (package_info : gmap string dep_info)
    (module_version : string) (package_list : list string) :
  (exists packages,
     resolve_packages package_info module_version package_list = Ok packages)
  \/ (exists name,
        resolve_packages package_info module_version package_list
        = Raise (KeyError name)
        /\ package_info !! name = None
        /\ (name ∈ package_list
            \/ exists p, p ∈ package_list
                 /\ name ∈ listed_deps package_info p)).
Proof.
  unfold resolve_packages.
  destruct (packages_loop_cases package_info module_version package_list ∅ [])
    as [[[processed packages] ->] | (name & -> & Hnone & Hwhere)]; simpl.
  - left. eauto.
  - right. eauto.
Qed.

(** X13. Every entry of the package graph is a package of the listing with
    the version of the main module, and its dependency records are those
    of the [Deps] of its listing entry: one record for each name, in the
    order of the listing, each of type [go-package] and with the version
    that the listing entry of its name gives. *)
Theorem resolve_packages_entries (package_info : gmap string dep_info)
    (module_version : string) (package_list : list string)
    (packages : list package_entry) :
  resolve_packages package_info module_version package_list = Ok packages ->
  Forall (entry_from_listing package_info module_version) packages.
Proof.
  intros Hrun.
  by apply resolve_packages_ok in Hrun as (_ & Hall & _).
Qed.

Lemma resolve_packages_entries_witness :
  resolve_packages demo_package_info "v1.0.0"
    ["example.com/m/a"; "example.com/m/b"; "example.com/m/c"]
  = Ok [ demo_entry "example.com/m/a"
           [("fmt", None); ("example.com/m/b", Some "v1.0.0")];
         demo_entry "example.com/m/c" [] ]
  /\ Forall (entry_from_listing demo_package_info "v1.0.0")
       [ demo_entry "example.com/m/a"
           [("fmt", None); ("example.com/m/b", Some "v1.0.0")];
         demo_entry "example.com/m/c" [] ].
Proof.
  split; [exact demo_resolve_packages |].
  exact (resolve_packages_entries demo_package_info "v1.0.0"
           ["example.com/m/a"; "example.com/m/b"; "example.com/m/c"]
           _ demo_resolve_packages).
Defined.

(** ** The lines of the module listing *)

Lemma split_no_space (s : string) :
  no_space s = true -> Py.split " " s = [s].
Proof.
  induction s as [| c s IH]; [done |]. simpl.
  intros [Hc Hs]%andb_true_iff. apply negb_true_iff in Hc.
  by rewrite Hc, IH.
Qed.

Lemma split_word (s t : string) :
  no_space s = true ->
  Py.split " " (s +:+ " " +:+ t) = s :: Py.split " " t.
Proof.
  induction s as [| c s IH]; [done |].
  intros [Hc Hs]%andb_true_iff. apply negb_true_iff in Hc.
  rewrite str_app_cons. simpl. by rewrite Hc, IH.
Qed.

(** X14. How a line of the module listing gives a record, for words
    without spaces. [name version] gives the module at that version;
    [name version => path], a local replacement, gives the module with the
    path as its version; [old old_version => name version] gives the
    replacing module, with a [replaces] sub-record and the old name marked
    as used exactly when the old name was requested. *)
Theorem module_line_shapes (replaced_dep_names used : gset string)
    (deps : list module_dep) (name version other other_version : string) :
  no_space name = true -> no_space version = true ->
  no_space other = true -> no_space other_version = true ->
  module_line_step replaced_dep_names (name +:+ " " +:+ version) used deps
  = (used, deps ++ [module_record name None version])
  /\ module_line_step replaced_dep_names
       (name +:+ " " +:+ version +:+ " " +:+ "=>" +:+ " " +:+ other)
       used deps
     = (used, deps ++ [module_record name None other])
  /\ module_line_step replaced_dep_names
       (name +:+ " " +:+ version +:+ " " +:+ "=>" +:+ " " +:+ other
        +:+ " " +:+ other_version) used deps
     = if bool_decide (name ∈ replaced_dep_names)
       then ({[name]} ∪ used,
             deps ++ [module_record other
                        (Some {| replaces_type := "gomod";
                                 replaces_name := name;
                                 replaces_version := version |})
                        other_version])
       else (used, deps ++ [module_record other None other_version]).
Proof.
  intros Hname Hversion Hother Hother_version.
  unfold module_line_step.
  rewrite !split_word by done. rewrite !split_no_space by done.
  split; [done |]. split; [done |].
  rewrite bool_decide_eq_true_2 by done. by case_bool_decide.
Qed.

Lemma module_line_shapes_witness :
  module_line_step {["k8s.io/metrics"]}
    ("k8s.io/metrics" +:+ " " +:+ "v0.0.0" +:+ " " +:+ "=>" +:+ " "
     +:+ "./staging/src/k8s.io/metrics") ∅ []
  = (∅, [module_record "k8s.io/metrics" None "./staging/src/k8s.io/metrics"]).
Proof.
  apply (module_line_shapes {["k8s.io/metrics"]} ∅ [] "k8s.io/metrics"
           "v0.0.0" "./staging/src/k8s.io/metrics" "v1"); reflexivity.
Defined.

(** X15. A line gives no record, and marks no replacement as used, unless
    it has two words, or four or five words with [=>] as the third. *)
Theorem module_line_skipped (replaced_dep_names used : gset string)
    (deps : list module_dep) (line : string) :
  match Py.split " " line with
  | [_; _] => False
  | [_; _; arrow; _] | [_; _; arrow; _; _] => arrow <> "=>"
  | _ => True
  end ->
  module_line_step replaced_dep_names line used deps = (used, deps).
Proof.
  unfold module_line_step.
  destruct (Py.split " " line)
    as [| p0 [| p1 [| p2 [| p3 [| p4 [| p5 parts]]]]]]; try done.
  - intros Harrow. by rewrite bool_decide_eq_false_2.
  - intros Harrow. by rewrite bool_decide_eq_false_2.
Qed.

Lemma module_line_skipped_witness :
  module_line_step ∅ "github.com/release-engineering/retrodep/v2" ∅ []
  = (∅, []).
Proof.
  apply (module_line_skipped ∅ ∅ [] "github.com/release-engineering/retrodep/v2").
  exact I.
Defined.

(** X16. Without requested replacements the module-level part of a resolve
    is never rejected, whatever the lines are, and no record carries a
    [replaces] sub-record. *)
Theorem no_replacements_never_rejected (module_lines : list string) :
  exists records,
    resolve_module_deps [] module_lines = Ok records
    /\ Forall (fun d => mod_replaces d = None) records.
Proof.
  unfold resolve_module_deps.
  destruct (module_lines_loop (requested_names []) module_lines ∅ [])
    as [used records] eqn:Hloop.
  apply module_lines_loop_spec in Hloop as (new & -> & _ & _ & Hnew).
  rewrite bool_decide_eq_true_2 by (unfold requested_names; set_solver).
  eexists. split; [done |]. apply Forall_forall. intros d Hd.
  destruct (mod_replaces d) as [r |] eqn:Hr; [| done].
  destruct (Hnew d r Hd Hr) as (line & _ & old & ? & _ & Hin & _).
  unfold requested_names in Hin. set_solver.
Qed.

(** X17. Every [replaces] sub-record of a module record comes from a line
    of the listing that replaces a requested name: it has the type
    [gomod], the old name of that line, which is among the requested ones,
    and its old version, and the record is the module on the right of the
    line. *)
Theorem replaces_only_requested (dep_replacements : list dep_replacement)
    (module_lines : list string) (records : list module_dep)
    (d : module_dep) (r : replaces_record) :
  resolve_module_deps dep_replacements module_lines = Ok records ->
  d ∈ records -> mod_replaces d = Some r ->
  replaces_type r = "gomod"
  /\ replaces_name r ∈ requested_names dep_replacements
  /\ exists line,
       line ∈ module_lines
       /\ replace_directive line (replaces_name r) (replaces_version r)
            (mod_name d) (mod_version d).
Proof.
  unfold resolve_module_deps.
  destruct (module_lines_loop (requested_names dep_replacements)
              module_lines ∅ []) as [used new] eqn:Hloop.
  apply module_lines_loop_spec in Hloop as (new' & -> & _ & _ & Hnew).
  case_bool_decide; [| done]. intros [= <-] Hd Hr.
  destruct (Hnew d r Hd Hr) as (line & Hline & old & old_version & Hdir & Hin
                                & Hreplaces).
  rewrite Hr in Hreplaces. injection Hreplaces as ->. simpl. eauto.
Qed.

Lemma replaces_only_requested_witness :
  "github.com/pkg/errors"
    ∈ requested_names
        [ {| replacement_name := "github.com/pkg/errors";
             replacement_new_name := None; replacement_version := "v0.8.1" |} ]
  /\ exists line,
       line ∈ [ "github.com/pkg/errors v0.8.0 => github.com/pkg/errors v0.8.1";
                "k8s.io/metrics v0.0.0 => ./staging/src/k8s.io/metrics";
                "rsc.io/quote v1.5.2" ]
       /\ replace_directive line "github.com/pkg/errors" "v0.8.0"
            "github.com/pkg/errors" "v0.8.1".
Proof.
  refine (proj2 (replaces_only_requested _ _ _
                   (module_record "github.com/pkg/errors"
                      (Some {| replaces_type := "gomod";
                               replaces_name := "github.com/pkg/errors";
                               replaces_version := "v0.8.0" |}) "v0.8.1")
                   _ replacement_applied _ eq_refl)).
  constructor.
Defined.

(** ** The highest tag *)

Lemma gt_model_strict_weak_order : strict_weak_order gt_model.
Proof.
  split.
  - intros a b. unfold gt_model.
    rewrite (N.compare_antisym (Semver.major a) (Semver.major b)).
    rewrite (N.compare_antisym (Semver.minor a) (Semver.minor b)).
    rewrite (N.compare_antisym (Semver.patch a) (Semver.patch b)).
    destruct (Semver.major a ?= Semver.major b)%N; simpl; try done.
    destruct (Semver.minor a ?= Semver.minor b)%N; simpl; try done.
    destruct (Semver.patch a ?= Semver.patch b)%N; simpl; try done.
    by destruct (Semver.truthy (Semver.prerelease a)),
      (Semver.truthy (Semver.prerelease b)).
  - intros a b c. unfold gt_model.
    destruct (N.compare_spec (Semver.major a) (Semver.major c));
      destruct (N.compare_spec (Semver.major a) (Semver.major b));
      destruct (N.compare_spec (Semver.major b) (Semver.major c));
      try lia; try done; auto;
    destruct (N.compare_spec (Semver.minor a) (Semver.minor c));
      destruct (N.compare_spec (Semver.minor a) (Semver.minor b));
      destruct (N.compare_spec (Semver.minor b) (Semver.minor c));
      try lia; try done; auto;
    destruct (N.compare_spec (Semver.patch a) (Semver.patch c));
      destruct (N.compare_spec (Semver.patch a) (Semver.patch b));
      destruct (N.compare_spec (Semver.patch b) (Semver.patch c));
      try lia; try done; auto;
    destruct (Semver.truthy (Semver.prerelease a)),
      (Semver.truthy (Semver.prerelease b)),
      (Semver.truthy (Semver.prerelease c)); simpl; auto.
Qed.

Lemma highest_loop_max (parse : string -> option Semver.VersionInfo)
    (semver_gt : Semver.VersionInfo -> Semver.VersionInfo -> bool)
    (major_version : N) (subpath : option string) (tags : list string) :
  strict_weak_order semver_gt ->
  forall highest tag_name version,
    highest_loop parse semver_gt major_version subpath tags highest
      = Some (tag_name, version) ->
    (forall t v, highest = Some (t, v) -> semver_gt v version = false)
    /\ (forall t v,
          t ∈ tags -> tag_of_major parse subpath major_version t v ->
          semver_gt v version = false).
Proof.
  intros [Hasym Hneg].
  assert (Hirr : forall a, semver_gt a a = false).
  { intros a. destruct (semver_gt a a) eqn:Ha; [| done].
    by rewrite (Hasym a a Ha) in Ha. }
  assert (Hbelow : forall a b c,
    semver_gt a b = false -> semver_gt b c = false -> semver_gt a c = false).
  { intros a b c Hab Hbc. destruct (semver_gt a c) eqn:Hac; [| done].
    destruct (Hneg a b c Hac); congruence. }
  induction tags as [| t tags IH]; intros highest tag_name version; simpl.
  - intros ->. split; [| by intros ?? ?%elem_of_nil].
    intros ?? [= <- <-]. apply Hirr.
  - assert (Hskip :
      (forall v, ~ tag_of_major parse subpath major_version t v) ->
      highest_loop parse semver_gt major_version subpath tags highest
        = Some (tag_name, version) ->
      (forall t0 v, highest = Some (t0, v) -> semver_gt v version = false)
      /\ (forall t0 v,
            t0 ∈ t :: tags -> tag_of_major parse subpath major_version t0 v ->
            semver_gt v version = false)).
    { intros Hno [Hbest Hall]%IH. split; [done |].
      intros t0 v [-> | Hin]%elem_of_cons Htag; [by destruct (Hno v) |].
      by eapply Hall. }
    destruct (_get_semantic_version_from_tag parse t subpath) as [v |] eqn:Hv;
      [| apply Hskip; intros ? [? _]; congruence].
    destruct (Semver.major v =? major_version)%N eqn:Hmajor; simpl;
      [| apply Hskip; intros v' [Hv' Hm]; apply N.eqb_neq in Hmajor;
         congruence].
    assert (Htake :
      (forall t0 v0, highest = Some (t0, v0) -> semver_gt v v0 = true) ->
      highest_loop parse semver_gt major_version subpath tags (Some (t, v))
        = Some (tag_name, version) ->
      (forall t0 v0, highest = Some (t0, v0) -> semver_gt v0 version = false)
      /\ (forall t0 v0,
            t0 ∈ t :: tags -> tag_of_major parse subpath major_version t0 v0 ->
            semver_gt v0 version = false)).
    { intros Habove [Hbest Hall]%IH.
      pose proof (Hbest t v eq_refl) as Hv_final. split.
      - intros t0 v0 Hhighest. apply (Hbelow v0 v version); [| done].
        apply Hasym. by eapply Habove.
      - intros t0 v0 [-> | Hin]%elem_of_cons Htag; [| by eapply Hall].
        destruct Htag as [Hv0 _]. rewrite Hv in Hv0. by injection Hv0 as <-. }
    destruct highest as [[best_tag best] |];
      [| apply Htake; by intros ?? [=]].
    destruct (semver_gt v best) eqn:Hgt;
      [apply Htake; by intros ?? [= _ <-] |].
    intros [Hbest Hall]%IH. split; [done |].
    intros t0 v0 [-> | Hin]%elem_of_cons Htag; [| by eapply Hall].
    destruct Htag as [Hv0 _]. rewrite Hv in Hv0. injection Hv0 as <-.
    apply (Hbelow v best version); [done |]. by eapply Hbest.
Qed.

(** X18. [_get_highest_semver_tag] returns a tag exactly when one of the
    tags it chooses from, those of the commit or those reachable from it
    that start with the prefix, parses to a version of the major version
    asked for; the tag it returns is one of these. *)
Theorem highest_semver_tag_found
    (parse : string -> option Semver.VersionInfo)
    (semver_gt : Semver.VersionInfo -> Semver.VersionInfo -> bool)
    (r : repo) (major_version : N) (all_reachable : bool)
    (subpath : option string) :
  match _get_highest_semver_tag parse semver_gt r major_version all_reachable
          subpath with
  | Some tag_name =>
      tag_name ∈ candidate_tags r all_reachable subpath
      /\ exists version,
           tag_of_major parse subpath major_version tag_name version
  | None =>
      forall tag_name version,
        tag_name ∈ candidate_tags r all_reachable subpath ->
        ~ tag_of_major parse subpath major_version tag_name version
  end.
Proof.
  destruct (_get_highest_semver_tag _ _ _ _ _ _) as [tag_name |] eqn:Hrun.
  - apply get_highest_semver_tag_sound in Hrun as (Hin & Hprefix & Hversion).
    split; [| done]. by apply list_elem_of_filter.
  - intros tag_name version [Hprefix Hin]%list_elem_of_filter Htag.
    destruct (get_highest_semver_tag_finds parse semver_gt r major_version
                all_reachable subpath tag_name version Hin Hprefix Htag)
      as [chosen Hchosen].
    congruence.
Qed.

(** X19. When the order of versions is a strict weak order, the tag that
    [_get_highest_semver_tag] returns is a highest one: no tag it chooses
    from that parses to the major version asked for has a version above
    the version of the returned tag. *)
Theorem highest_semver_tag_maximal
    (parse : string -> option Semver.VersionInfo)
    (semver_gt : Semver.VersionInfo -> Semver.VersionInfo -> bool)
    (r : repo) (major_version : N) (all_reachable : bool)
    (subpath : option string) (tag_name : string) :
  strict_weak_order semver_gt ->
  _get_highest_semver_tag parse semver_gt r major_version all_reachable
    subpath = Some tag_name ->
  exists version,
    tag_of_major parse subpath major_version tag_name version
    /\ forall other other_version,
         other ∈ candidate_tags r all_reachable subpath ->
         tag_of_major parse subpath major_version other other_version ->
         semver_gt other_version version = false.
Proof.
  intros Horder. unfold _get_highest_semver_tag.
  destruct (highest_loop _ _ _ _ _ _) as [[t version] |] eqn:Hloop; [| done].
  simpl. intros [= ->]. exists version.
  pose proof Hloop as [? | [_ Htag]]%highest_loop_sound; [done |].
  split; [done |].
  by apply (highest_loop_max _ _ _ _ _ Horder) in Hloop as [_ Hall].
Qed.

Lemma highest_semver_tag_maximal_witness :
  _get_highest_semver_tag parse_model gt_model repo_after_alpha 2 true None
  = Some "v2.2.0-alpha"
  /\ exists version,
       tag_of_major parse_model None 2 "v2.2.0-alpha" version
       /\ forall other other_version,
            other ∈ candidate_tags repo_after_alpha true None ->
            tag_of_major parse_model None 2 other other_version ->
            gt_model other_version version = false.
Proof.
  split; [reflexivity |].
  apply (highest_semver_tag_maximal parse_model gt_model repo_after_alpha 2
           true None "v2.2.0-alpha").
  - apply gt_model_strict_weak_order.
  - reflexivity.
Defined.



(** ** The path of a package in the repository *)

Example package_subpath_test :
  _package_subpath "github.com/my-org/my-repo" "github.com/my-org/my-repo" "."
  = Ok "."
  /\ _package_subpath "github.com/my-org/my-repo"
       "github.com/my-org/my-repo/pkg/util" "."
     = Ok "pkg/util"
  /\ _package_subpath "github.com/my-org/my-repo/foo"
       "github.com/my-org/my-repo/foo/bar" "foo"
     = Ok "foo/bar"
  /\ PyPath.normpath "a//b/./c/../d/" = "a/b/d"
  /\ PyPath.normpath "../a/../../b" = "../../b"
  /\ PyPath.normpath "/../a" = "/a"
  /\ PyPath.normpath "//a" = "//a"
  /\ PyPath.normpath "///a" = "/a"
  /\ PyPath.normpath "" = "."
  /\ PyPath.normpath "./" = ".".
Proof. repeat split; vm_compute; reflexivity. Qed.

Lemma split_slash_component (s t : string) :
  no_slash s = true ->
  Py.split "/" (s +:+ "/" +:+ t) = s :: Py.split "/" t.
Proof.
  induction s as [| c s IH]; [done |].
  intros [Hc Hs]%andb_true_iff. apply negb_true_iff in Hc.
  rewrite str_app_cons. simpl. by rewrite Hc, IH.
Qed.

Lemma split_slash_none (s : string) :
  no_slash s = true -> Py.split "/" s = [s].
Proof.
  induction s as [| c s IH]; [done |]. simpl.
  intros [Hc Hs]%andb_true_iff. apply negb_true_iff in Hc.
  by rewrite Hc, IH.
Qed.

Lemma join_cons (sep x y : string) (l : list string) :
  Py.join sep (x :: y :: l) = x +:+ sep +:+ Py.join sep (y :: l).
Proof. reflexivity. Qed.

Lemma split_join_slash (comps : list string) :
  comps <> [] -> Forall (fun c => no_slash c = true) comps ->
  Py.split "/" (Py.join "/" comps) = comps.
Proof.
  induction comps as [| x [| y l] IH]; [done | |]; intros _ Hall.
  - apply Forall_cons in Hall as [Hx _]. by apply split_slash_none.
  - apply Forall_cons in Hall as [Hx Hall].
    rewrite join_cons, split_slash_component by done. f_equal. by apply IH.
Qed.

Lemma join_app_slash (a b : list string) :
  a <> [] -> b <> [] ->
  Py.join "/" (a ++ b) = Py.join "/" a +:+ "/" +:+ Py.join "/" b.
Proof.
  intros Ha Hb. induction a as [| x [| y l] IH]; [done | |].
  - destruct b as [| z b]; [done |]. reflexivity.
  - change ((x :: y :: l) ++ b) with (x :: y :: (l ++ b)).
    rewrite !join_cons. change (y :: l ++ b) with ((y :: l) ++ b).
    rewrite IH by done. by rewrite !str_app_assoc.
Qed.

Lemma path_component_spec (c : string) :
  path_component c = true
  <-> c <> "" /\ no_slash c = true /\ c <> "." /\ c <> "..".
Proof.
  unfold path_component.
  rewrite !andb_true_iff, !negb_true_iff, !bool_decide_eq_false.
  destruct c; simpl; naive_solver.
Qed.

Lemma normpath_loop_components (initial_slashes : nat)
    (comps new_comps : list string) :
  Forall (fun c => path_component c = true \/ c = "" \/ c = ".") comps ->
  PyPath.normpath_loop initial_slashes comps new_comps
  = new_comps ++ filter (fun c => path_component c = true) comps.
Proof.
  revert new_comps. induction comps as [| c comps IH]; intros new_comps Hall.
  - by rewrite app_nil_r.
  - apply Forall_cons in Hall as [Hc Hall]. simpl. rewrite filter_cons.
    destruct Hc as [Hc | [-> | ->]].
    + pose proof Hc as (Hne & _ & Hdot & Hdotdot)%path_component_spec.
      rewrite (bool_decide_eq_false_2 (c = "")) by done.
      rewrite (bool_decide_eq_false_2 (c = ".")) by done.
      rewrite (bool_decide_eq_false_2 (c = "..")) by done. simpl.
      rewrite decide_True by done. rewrite IH by done.
      by rewrite <- app_assoc.
    + simpl. by apply IH.
    + simpl. by apply IH.
Qed.

Lemma join_truthy (x : string) (l : list string) :
  x <> "" -> Py.truthy (Py.join "/" (x :: l)) = true.
Proof. destruct x; [done |]. by destruct l. Qed.

Lemma join_not_rooted (x : string) (l : list string) :
  x <> "" -> no_slash x = true ->
  Py.startswith (Py.join "/" (x :: l)) "/" = false.
Proof.
  destruct x as [| c x]; [done |]. intros _ [Hc _]%andb_true_iff.
  apply negb_true_iff in Hc.
  destruct l; simpl; rewrite ?str_app_cons, startswith_cons, Hc; done.
Qed.

(** Normalising a relative path whose components are kept or skipped
    leaves the kept ones. *)
Lemma normpath_components (first : string) (comps : list string) :
  first <> "" ->
  Forall (fun c => path_component c = true \/ c = "" \/ c = ".")
    (first :: comps) ->
  PyPath.normpath (Py.join "/" (first :: comps))
  = path_of (filter (fun c => path_component c = true) (first :: comps)).
Proof.
  intros Hfirst Hall. unfold PyPath.normpath.
  assert (Hslash : Forall (fun c => no_slash c = true) (first :: comps)).
  { eapply Forall_impl; [exact Hall |]. simpl.
    intros c [(_ & ? & _)%path_component_spec | [-> | ->]]; done. }
  rewrite join_truthy by done. simpl negb. cbv iota.
  rewrite join_not_rooted by (by apply Forall_cons in Hslash as [? _]).
  rewrite split_join_slash by done.
  rewrite normpath_loop_components by done. rewrite app_nil_l.
  assert (Hkept : Forall (fun c => path_component c = true)
                    (filter (fun c => path_component c = true)
                       (first :: comps))).
  { apply Forall_forall. by intros c [? _]%list_elem_of_filter. }
  destruct (filter _ (first :: comps)) as [| k kept]; [done |].
  apply Forall_cons in Hkept as [(Hk & _)%path_component_spec _].
  by rewrite join_truthy.
Qed.

Lemma ends_with_slash_component (s : string) :
  no_slash s = true -> PyPath.ends_with_slash s = false.
Proof.
  induction s as [| c s IH]; [done |].
  intros [Hc Hs]%andb_true_iff. apply negb_true_iff in Hc.
  destruct s as [| c' s]; [done |]. by apply IH.
Qed.

Lemma ends_with_slash_app (a b : string) :
  b <> "" -> PyPath.ends_with_slash (a +:+ b) = PyPath.ends_with_slash b.
Proof.
  intros Hb. induction a as [| c a IH]; [done |].
  rewrite str_app_cons. simpl. rewrite IH.
  destruct (a +:+ b) eqn:Hab; [| done].
  destruct a; [| done]. by rewrite str_app_nil_l in Hab.
Qed.

Lemma join_no_trailing_slash (comps : list string) :
  Forall (fun c => c <> "" /\ no_slash c = true) comps ->
  PyPath.ends_with_slash (Py.join "/" comps) = false.
Proof.
  induction comps as [| x [| y l] IH]; [done | |]; intros Hall.
  - apply Forall_cons in Hall as [[_ Hx] _]. by apply ends_with_slash_component.
  - apply Forall_cons in Hall as [_ Hall]. rewrite join_cons.
    rewrite ends_with_slash_app.
    + rewrite ends_with_slash_app; [by apply IH |].
      apply Forall_cons in Hall as [[Hy _] _]. destruct y; [done |].
      by destruct l.
    + done.
Qed.

Lemma filter_components (parts : list string) :
  Forall (fun c => path_component c = true) parts ->
  filter (fun c => path_component c = true) parts = parts.
Proof.
  induction 1 as [| c parts Hc _ IH]; [done |].
  by rewrite filter_cons, decide_True, IH.
Qed.

(** X21. A package of a module lies below the module: for a module at the
    path [sub_parts] of the repository, which is [.] at its root, and a
    package whose name is the module name followed by the components
    [rel_parts], the path of the package is that of the components of the
    module followed by those of the package, and [.] when there is none. *)
Theorem package_subpath_joins (module_name : string)
    (sub_parts rel_parts : list string) :
  Forall (fun c => path_component c = true) sub_parts ->
  Forall (fun c => path_component c = true) rel_parts ->
  _package_subpath module_name
    match rel_parts with
    | [] => module_name
    | _ => module_name +:+ "/" +:+ Py.join "/" rel_parts
    end
    (path_of sub_parts)
  = Ok (path_of (sub_parts ++ rel_parts)).
Proof.
  intros Hsub Hrel. unfold _package_subpath.
  set (sub_comps := match sub_parts with [] => ["."] | _ => sub_parts end).
  assert (Hpath : path_of sub_parts = Py.join "/" sub_comps)
    by (by destruct sub_parts).
  assert (Hcomps : Forall (fun c => path_component c = true \/ c = "" \/ c = ".")
                     sub_comps).
  { unfold sub_comps. destruct sub_parts; [constructor; [auto | constructor] |].
    eapply Forall_impl; [exact Hsub | auto]. }
  assert (Hsolid : Forall (fun c => c <> "" /\ no_slash c = true) sub_comps).
  { unfold sub_comps. destruct sub_parts; [by repeat constructor |].
    eapply Forall_impl; [exact Hsub |]. simpl.
    by intros c (? & ? & _)%path_component_spec. }
  assert (Hkept : filter (fun c => path_component c = true) sub_comps
                  = sub_parts).
  { unfold sub_comps. destruct sub_parts; [done |].
    by apply filter_components. }
  assert (Hne : sub_comps <> []) by (unfold sub_comps; by destruct sub_parts).
  assert (Hjoin : forall rel,
    Py.startswith rel "/" = false ->
    PyPath.join (path_of sub_parts) rel = Py.join "/" (sub_comps ++ [rel])).
  { intros rel Hrooted. unfold PyPath.join. rewrite Hrooted, Hpath.
    rewrite join_no_trailing_slash by done.
    rewrite join_app_slash by done.
    destruct sub_comps as [| x l]; [done |].
    apply Forall_cons in Hsolid as [[Hx _] _].
    by rewrite join_truthy. }
  destruct rel_parts as [| r rel_parts].
  - rewrite path_to_subpackage_self. simpl. f_equal.
    rewrite Hjoin by done. rewrite app_nil_r.
    clearbody sub_comps. destruct sub_comps as [| x l]; [done |].
    change ((x :: l) ++ [""]) with (x :: (l ++ [""])).
    rewrite (normpath_components x (l ++ [""])).
    + change (x :: l ++ [""]) with ((x :: l) ++ [""]).
      rewrite filter_app, Hkept. simpl. by rewrite app_nil_r.
    + by apply Forall_cons in Hsolid as [[? _] _].
    + change (x :: l ++ [""]) with ((x :: l) ++ [""]).
      apply Forall_app. split; [done |]. constructor; [auto | constructor].
  - rewrite path_to_subpackage_suffix.
    pose proof Hrel as [(Hr & Hr_slash & _)%path_component_spec _]%Forall_cons.
    rewrite lstrip_slash_fixed by (by apply join_not_rooted).
    change (Ok (PyPath.normpath
                  (PyPath.join (path_of sub_parts)
                     (Py.join "/" (r :: rel_parts))))
            = Ok (path_of (sub_parts ++ r :: rel_parts))).
    rewrite Hjoin by (by apply join_not_rooted). f_equal.
    replace (Py.join "/" (sub_comps ++ [Py.join "/" (r :: rel_parts)]))
      with (Py.join "/" (sub_comps ++ r :: rel_parts))
      by (by rewrite !join_app_slash).
    clearbody sub_comps. destruct sub_comps as [| x l]; [done |].
    change ((x :: l) ++ r :: rel_parts) with (x :: (l ++ r :: rel_parts)).
    rewrite (normpath_components x (l ++ r :: rel_parts)).
    + change (x :: l ++ r :: rel_parts) with ((x :: l) ++ r :: rel_parts).
      rewrite filter_app, Hkept, filter_components by done. done.
    + by apply Forall_cons in Hsolid as [[? _] _].
    + change (x :: l ++ r :: rel_parts) with ((x :: l) ++ r :: rel_parts).
      apply Forall_app. split; [done |].
      eapply Forall_impl; [exact Hrel | auto].
Qed.

Lemma package_subpath_joins_witness :
  _package_subpath "github.com/my-org/my-repo/foo"
    ("github.com/my-org/my-repo/foo" +:+ "/" +:+ Py.join "/" ["pkg"; "util"])
    (path_of ["foo"])
  = Ok (path_of (["foo"] ++ ["pkg"; "util"])).
Proof.
  apply (package_subpath_joins "github.com/my-org/my-repo/foo" ["foo"]
           ["pkg"; "util"]); repeat constructor.
Defined.

(** ** Vendoring or downloading *)

Example vendor_deps_test :
  _vendor_deps (Returns "") (Returns true) false
  = Raises (Known (PackageRejected vendor_not_consistent))
  /\ _vendor_deps (Returns "") (Returns false) false = Returns tt
  /\ _vendor_deps (Returns "") (Returns true) true = Returns tt
  /\ _vendor_deps (Returns "") (Returns false) true = Returns tt.
Proof. repeat split; reflexivity. Qed.

(** X22. When the commands of the step run without an error, the step that
    vendors or downloads the dependencies is rejected for a vendor
    directory that changed exactly when the flag [gomod-vendor-check] is
    set, something exists at [vendor] and vendoring changed it; it is
    rejected for a missing flag exactly when no vendor flag is set, the
    configuration is strict and [vendor] is a directory; in every other
    case it returns whether it vendored, which is whether a vendor flag is
    set. *)
Theorem vendor_or_download_table (flags : list string) (vendor : path_state)
    (strict : bool) (vendor_output download_output : string)
    (changed : bool) :
  let check := bool_decide ("gomod-vendor-check" ∈ flags) in
  let any := check || bool_decide ("gomod-vendor" ∈ flags) in
  vendor_or_download flags vendor strict (Returns vendor_output)
    (Returns download_output) (Returns changed)
  = if check && path_exists vendor && changed then
      Raises (Known (PackageRejected vendor_not_consistent))
    else if negb any && strict && path_is_dir vendor then
      Raises (Known (PackageRejected vendor_flag_required))
    else Returns any.
Proof.
  unfold vendor_or_download, _should_vendor_deps.
  destruct (bool_decide ("gomod-vendor-check" ∈ flags)); simpl.
  - by destruct vendor, changed.
  - destruct (bool_decide ("gomod-vendor" ∈ flags)); simpl; [done |].
    by destruct strict, vendor.
Qed.

(** X23. With [gomod-vendor] and without [gomod-vendor-check], or when
    nothing exists at [vendor], [_vendor_changed] is not consulted:
    whatever it would give, an error included, the step gives the same. *)
Theorem vendor_changed_not_consulted (flags : list string)
    (vendor : path_state) (strict : bool)
    (go_mod_vendor go_mod_download : outcome string)
    (vendor_changed vendor_changed' : outcome bool) :
  "gomod-vendor-check" ∉ flags \/ vendor = Missing ->
  vendor_or_download flags vendor strict go_mod_vendor go_mod_download
    vendor_changed
  = vendor_or_download flags vendor strict go_mod_vendor go_mod_download
      vendor_changed'.
Proof.
  unfold vendor_or_download, _should_vendor_deps, _vendor_deps.
  intros [Hcheck | ->].
  - rewrite (bool_decide_eq_false_2 _ Hcheck).
    destruct (bool_decide ("gomod-vendor" ∈ flags)); simpl;
      [by destruct go_mod_vendor |].
    by destruct strict, vendor.
  - destruct (bool_decide ("gomod-vendor-check" ∈ flags)); simpl;
      [by destruct go_mod_vendor |].
    destruct (bool_decide ("gomod-vendor" ∈ flags)); simpl;
      [by destruct go_mod_vendor | by destruct strict].
Qed.

Lemma vendor_changed_not_consulted_witness :
  vendor_or_download ["gomod-vendor"] IsDir true (Returns "") (Returns "")
    (Returns true)
  = vendor_or_download ["gomod-vendor"] IsDir true (Returns "") (Returns "")
      (Raises (RuntimeError "git")).
Proof.
  apply (vendor_changed_not_consulted ["gomod-vendor"] IsDir true).
  left. by_decide.
Defined.
